(** * mdv: request routing and tree navigation of the markdown viewer

    A shallow embedding of [src/mdv/server.py]: the subtree resolver
    [get_children], the response constructors, the dispatcher [App.dispatch],
    the render helpers and the route handlers, followed by the properties the
    specification states about them. *)

From Stdlib Require Import String Ascii List Bool ZArith Lia Permutation.
Import ListNotations.
Open Scope string_scope.
Open Scope list_scope.

Set Warnings "-register-all".

(** ** Tree nodes

    A node is a Python dict with the keys ["type"], ["name"] and, optionally,
    ["children"]; [children = None] stands for a dict without that key. *)

Inductive TreeNode : Type :=
| Node (type : string) (name : string) (children : option (list TreeNode)).

Definition type (n : TreeNode) : string :=
  match n with Node t _ _ => t end.

Definition name (n : TreeNode) : string :=
  match n with Node _ s _ => s end.

Definition children (n : TreeNode) : option (list TreeNode) :=
  match n with Node _ _ c => c end.

(** [node.get("children", [])] *)
Definition get_children_or_empty (n : TreeNode) : list TreeNode :=
  match children n with
  | Some c => c
  | None => []
  end.

Definition is_directory (n : TreeNode) : bool := type n =? "directory".

(** ** Splitting a path

    [split sep s] is Python's [s.split(sep)] for a one character separator:
    the pieces between the separators, empty pieces included. *)

Fixpoint split (sep : ascii) (s : string) : list string :=
  match s with
  | EmptyString => [EmptyString]
  | String c r =>
      if Ascii.eqb c sep then EmptyString :: split sep r
      else match split sep r with
           | h :: t => String c h :: t
           | [] => [String c EmptyString]
           end
  end.

(** Python truthiness of a string: the empty string is false. *)
Definition truthy (p : string) : bool :=
  match p with
  | EmptyString => false
  | String _ _ => true
  end.

Definition slash : ascii := "/"%char.

(** [parts = [p for p in path.split("/") if p]] *)
Definition path_parts (path : string) : list string :=
  filter truthy (split slash path).

(** ** The resolver *)

(** The inner loop of [get_children]: the first node of [nodes] that is a
    directory named [part]; [None] when the loop ends without a [break]. *)
Fixpoint find_dir (nodes : list TreeNode) (part : string) : option TreeNode :=
  match nodes with
  | [] => None
  | node :: rest =>
      if (type node =? "directory") && (name node =? part) then Some node
      else find_dir rest part
  end.

(** The outer loop of [get_children] together with the final
    [return nodes or []]. *)
Fixpoint descend (nodes : list TreeNode) (parts : list string)
  : option (list TreeNode) :=
  match parts with
  | [] => Some (match nodes with [] => [] | _ :: _ => nodes end)
  | part :: rest =>
      match find_dir nodes part with
      | None => None
      | Some found => descend (get_children_or_empty found) rest
      end
  end.

Definition get_children (tree : list TreeNode) (path : string)
  : option (list TreeNode) :=
  let parts := path_parts path in
  match parts with
  | [] => Some tree
  | _ :: _ => descend tree parts
  end.

(** ** Vocabulary of the specification for the resolver *)

(** The path segments [segs] address the node [n] below the node list
    [nodes]: every segment but the last names a directory among the current
    siblings, the last one names [n]. *)
Inductive addresses : list TreeNode -> list string -> TreeNode -> Prop :=
| addresses_last nodes seg n :
    In n nodes -> name n = seg -> addresses nodes [seg] n
| addresses_step nodes seg d rest n :
    In d nodes -> name d = seg -> is_directory d = true ->
    addresses (get_children_or_empty d) rest n ->
    addresses nodes (seg :: rest) n.

(** Sibling names are pairwise different. *)
Fixpoint name_in (s : string) (nodes : list TreeNode) : bool :=
  match nodes with
  | [] => false
  | n :: rest => (name n =? s) || name_in s rest
  end.

Fixpoint unique_names (nodes : list TreeNode) : bool :=
  match nodes with
  | [] => true
  | n :: rest => negb (name_in (name n) rest) && unique_names rest
  end.

(** The invariant of the data model: names are unique among siblings, at
    every level of the tree. *)
Fixpoint wf_node (n : TreeNode) : bool :=
  match n with
  | Node _ _ None => true
  | Node _ _ (Some c) => unique_names c && forallb wf_node c
  end.

Definition wf_tree (tree : list TreeNode) : bool :=
  unique_names tree && forallb wf_node tree.

(** The path with its redundant separators removed. *)
Definition normalize (path : string) : string :=
  String.concat "/" (path_parts path).

(** A string without separator, and a path segment: a non-empty one. *)
Fixpoint slash_free (s : string) : bool :=
  match s with
  | EmptyString => true
  | String c r => negb (Ascii.eqb c slash) && slash_free r
  end.

Definition segment (s : string) : Prop :=
  slash_free s = true /\ truthy s = true.

(** The tree of the specification's scenario. *)
Definition file (s : string) : TreeNode := Node "file" s None.
Definition dir (s : string) (c : list TreeNode) : TreeNode :=
  Node "directory" s (Some c).

Definition scenario_tree : list TreeNode :=
  [dir "docs" [file "a.md"; file "b.md"]; file "readme.md"].

(** A tree outside the invariant: a file and a directory share a name. *)
Definition shadowed_tree : list TreeNode :=
  [file "a"; dir "a" [file "x"]; dir "a" [file "y"]].

(** A tree with two empty directories, one without the ["children"] key. *)
Definition sparse_tree : list TreeNode :=
  [dir "empty" []; Node "directory" "bare" None; file "notes.md"].

(** ** Responses

    [werkzeug.wrappers.Response]: a body, a status (200 when not given), a
    list of headers and a mimetype ([text/plain] when not given). *)

Record Response : Type := mkResponse {
  response : string;
  status : Z;
  headers : list (string * string);
  mimetype : string
}.

Definition default_status : Z := 200.
Definition default_mimetype : string := "text/plain".

Definition new_Response (body : option string) (st : option Z)
    (hd : list (string * string)) (mt : option string) : Response :=
  {| response := match body with Some b => b | None => "" end;
     status := match st with Some c => c | None => default_status end;
     headers := hd;
     mimetype := match mt with Some m => m | None => default_mimetype end |}.

(** ** Exceptions

    [NotFound] is werkzeug's 404 exception; [HTTPException] is any other
    exception that carries an HTTP status, with the body it renders;
    [Failure] is any exception that carries none, named by its class. *)

Inductive exn : Type :=
| NotFound (description : string)
| HTTPException (code : Z) (body : string)
| Failure (cls : string).

Inductive outcome (A : Type) : Type :=
| Return (a : A)
| Raise (e : exn).

Arguments Return {A} a.
Arguments Raise {A} e.

(** What [dispatch] returns: a [Response], or the [HTTPException] object
    itself, which werkzeug lets stand for a response. *)
Inductive reply : Type :=
| reply_response (r : Response)
| reply_exception (code : Z) (body : string).

(** What the WSGI server receives when the reply is called. *)
Definition reply_status (r : reply) : Z :=
  match r with
  | reply_response x => status x
  | reply_exception code _ => code
  end.

Definition reply_body (r : reply) : string :=
  match r with
  | reply_response x => response x
  | reply_exception _ body => body
  end.

(** ** Requests and routes *)

Record Request : Type := mkRequest {
  path_info : string;
  args : list (string * string)
}.

(** [request.args.get(key)] *)
Fixpoint args_get (key : string) (a : list (string * string)) : option string :=
  match a with
  | [] => None
  | (k, v) :: rest => if k =? key then Some v else args_get key rest
  end.

(** The endpoints of [url_map], each with the variables of its rule: what
    [adapter.match()] returns. *)
Inductive route : Type :=
| home                          (* Rule("/") *)
| static (filename : string)    (* Rule("/static/<path:filename>") *)
| index                         (* Rule("/v/") *)
| view (filename : string)      (* Rule("/v/<path:filename>") *)
| index_mdplain                 (* Rule("/m/") *)
| mdplain (filename : string)   (* Rule("/m/<path:filename>") *)
| mdtext (filename : string)    (* Rule("/t/<path:filename>") *)
| dirtree                       (* Rule("/api/tree") *)
| search.                       (* Rule("/api/search") *)

(** ** Calls to the collaborators

    The URL adapter, the content provider [self.state], the Jinja
    environment, the markdown parser and [json.dumps] are outside this
    module.  Every call to them is an event; an environment answers it,
    with a value or an exception, and may change its own state. *)

Inductive json : Type :=
| JNull
| JBool (b : bool)
| JNum (z : Z)
| JStr (s : string)
| JArr (l : list json)
| JObj (l : list (string * json)).

Inductive jsonable : Type :=
| of_tree (tree : list TreeNode)
| of_result (result : json).

(** The keyword arguments of [Template.render]. *)
Inductive context : Type :=
| content_ctx (content : string)
| tree_ctx (tree : list TreeNode) (path : string) (root : string).

(** A loaded template, known by the name it was loaded under. *)
Definition Template : Type := string.

Inductive call : Type :=
| url_map_bind (request : Request)    (* url_map.bind_to_environ(environ) *)
| adapter_match (request : Request)   (* raises NotFound when no rule matches *)
| state_is_file (filename : string)
| state_get_content (filename : string) (raw : option bool)
| state_get_tree
| state_refresh
| state_search (query : option string)
| env_get_template (template : string)
| template_render (t : Template) (ctx : context)
| MarkdownParser_parse (md : string)
| json_dumps (v : jsonable).

Definition answer (c : call) : Type :=
  match c with
  | url_map_bind _ => unit
  | adapter_match _ => route
  | state_is_file _ => bool
  | state_get_content _ _ => string
  | state_get_tree => list TreeNode
  | state_refresh => unit
  | state_search _ => json
  | env_get_template _ => Template
  | template_render _ _ => string
  | MarkdownParser_parse _ => string
  | json_dumps _ => string
  end.

Definition Env (S : Type) : Type :=
  forall c : call, S -> outcome (answer c) * S.

(** The state threaded through a request: the collaborators' state and the
    calls made so far, oldest first. *)
Record world (S : Type) : Type := mkWorld {
  ext : S;
  trace : list call
}.

Arguments mkWorld {S} ext trace.
Arguments ext {S} w.
Arguments trace {S} w.

Definition is_refresh (c : call) : bool :=
  match c with
  | state_refresh => true
  | _ => false
  end.

Definition refresh_count (l : list call) : nat :=
  length (filter is_refresh l).

(** ** The monad of a request: state, trace and exceptions *)

Definition M (S A : Type) : Type := world S -> outcome A * world S.

Definition ret {S A : Type} (a : A) : M S A := fun w => (Return a, w).

Definition raise {S A : Type} (e : exn) : M S A := fun w => (Raise e, w).

Definition bind {S A B : Type} (m : M S A) (k : A -> M S B) : M S B :=
  fun w =>
    match m w with
    | (Return a, w') => k a w'
    | (Raise e, w') => (Raise e, w')
    end.

(** [try: m except ...: h e]; the handler [h] re-raises what no [except]
    clause names. *)
Definition try_except {S A : Type} (m : M S A) (h : exn -> M S A) : M S A :=
  fun w =>
    match m w with
    | (Return a, w') => (Return a, w')
    | (Raise e, w') => h e w'
    end.

Declare Scope app_scope.
Delimit Scope app_scope with app.
Notation "x <- m ;; k" := (bind m (fun x => k))
  (at level 61, m at next level, right associativity) : app_scope.
Notation "m ;; k" := (bind m (fun _ => k))
  (at level 61, right associativity) : app_scope.
Open Scope app_scope.

Section App.

Context {S : Type}.
Variable env : Env S.

(** A call to a collaborator: recorded, then answered by the environment. *)
Definition perform (c : call) : M S (answer c) :=
  fun w =>
    let (r, s') := env c (ext w) in
    (r, mkWorld s' (trace w ++ [c])).

(** *** Render helpers *)

Definition render_markdown (template : string) (content : string)
  : M S Response :=
  t <- perform (env_get_template template) ;;
  html <- perform (template_render t (content_ctx content)) ;;
  ret (new_Response (Some html) None [] (Some "text/html")).

Definition render_tree (template prefix filename : string) : M S Response :=
  snapshot <- perform state_get_tree ;;
  match get_children snapshot filename with
  | None =>
      ret (new_Response (Some "Not found") (Some 404%Z) [] (Some "text/plain"))
  | Some tree =>
      t <- perform (env_get_template "tree.md") ;;
      tree_md <- perform (template_render t
                            (tree_ctx tree prefix ("/" ++ filename))) ;;
      parsed <- perform (MarkdownParser_parse tree_md) ;;
      render_markdown template parsed
  end.

Definition render_file (template filename : string) : M S Response :=
  md_html <- perform (state_get_content filename None) ;;
  render_markdown template md_html.

Definition handle_common (filename template prefix : string) : M S Response :=
  is_a_file <- perform (state_is_file filename) ;;
  if is_a_file : bool then render_file template filename
  else render_tree template prefix filename.

(** *** Handlers *)

Definition on_home (request : Request) : M S Response :=
  ret (new_Response None (Some 302%Z) [("Location", "/v")] None).

(** In [env.get_template(n).render(content=MarkdownParser.parse(tree_md))]
    the template is loaded before the argument is evaluated. *)
Definition on_index (request : Request) : M S Response :=
  perform state_refresh ;;
  tree <- perform state_get_tree ;;
  t <- perform (env_get_template "tree.md") ;;
  tree_md <- perform (template_render t (tree_ctx tree "v" "/")) ;;
  page <- perform (env_get_template "viewer.html") ;;
  parsed <- perform (MarkdownParser_parse tree_md) ;;
  html <- perform (template_render page (content_ctx parsed)) ;;
  ret (new_Response (Some html) None [] (Some "text/html")).

Definition on_index_mdplain (request : Request) : M S Response :=
  perform state_refresh ;;
  tree <- perform state_get_tree ;;
  t <- perform (env_get_template "tree.md") ;;
  tree_md <- perform (template_render t (tree_ctx tree "m" "/")) ;;
  page <- perform (env_get_template "plain.html") ;;
  parsed <- perform (MarkdownParser_parse tree_md) ;;
  html <- perform (template_render page (content_ctx parsed)) ;;
  ret (new_Response (Some html) None [] (Some "text/html")).

Definition on_dirtree (request : Request) : M S Response :=
  tree <- perform state_get_tree ;;
  body <- perform (json_dumps (of_tree tree)) ;;
  ret (new_Response (Some body) None [] (Some "application/json")).

Definition on_search (request : Request) : M S Response :=
  let query := args_get "query" (args request) in
  result <- perform (state_search query) ;;
  body <- perform (json_dumps (of_result result)) ;;
  ret (new_Response (Some body) None [] (Some "application/json")).

Definition on_mdplain (request : Request) (filename : string)
  : M S Response :=
  handle_common filename "plain.html" "m".

Definition on_view (request : Request) (filename : string) : M S Response :=
  handle_common filename "viewer.html" "v".

Definition on_mdtext (request : Request) (filename : string)
  : M S Response :=
  raw_text <- perform (state_get_content filename (Some true)) ;;
  ret (new_Response (Some raw_text) None [] (Some "text/plain")).

(** *** Dispatcher *)

(** [getattr(self, f"on_{endpoint}")] applied to the request and the values
    of the match; the class has no [on_static]. *)
Definition handler (r : route) (request : Request) : M S Response :=
  match r with
  | home => on_home request
  | static _ => raise (Failure "AttributeError")
  | index => on_index request
  | view filename => on_view request filename
  | index_mdplain => on_index_mdplain request
  | mdplain filename => on_mdplain request filename
  | mdtext filename => on_mdtext request filename
  | dirtree => on_dirtree request
  | search => on_search request
  end.

(** The body of the [try] statement of [dispatch]. *)
Definition try_body (request : Request) : M S reply :=
  r <- perform (adapter_match request) ;;
  resp <- handler r request ;;
  ret (reply_response resp).

(** The [try] statement of [dispatch]: what [dispatch] does once the
    adapter is bound.  The binding itself, which precedes the [try], is in
    [App_dispatch] below. *)
Definition dispatch (request : Request) : M S reply :=
  try_except (try_body request)
    (fun e =>
       match e with
       | NotFound _ =>
           ret (reply_response
                  (new_Response (Some "Not found") (Some 404%Z) []
                                (Some "text/plain")))
       | HTTPException code body => ret (reply_exception code body)
       | Failure _ => raise e
       end).

(** *** WSGI plumbing

    [response(environ, start_response)]: the status and the body handed to
    the server. *)
Definition wsgi_app (request : Request) : M S (Z * string) :=
  resp <- dispatch request ;;
  ret (reply_status resp, reply_body resp).

End App.

(** ** The whole of [dispatch], and the server

    [App.dispatch] begins by binding the URL map to the environ of the
    request, before its [try] statement; an exception of that call is
    therefore not caught. *)



Section Server.

Context {S : Type}.
Variable env : Env S.

(** [App.dispatch], from its first line. *)
Definition App_dispatch (request : Request) : M S reply :=
  perform env (url_map_bind request) ;;
  dispatch env request.

(** [App.wsgi_app] over the whole of [dispatch]. *)
Definition App_wsgi_app (request : Request) : M S (Z * string) :=
  resp <- App_dispatch request ;;
  ret (reply_status resp, reply_body resp).

(** [isinstance(e, (ConnectionError, socket.timeout))], on the class of the
    exception. *)
Variable dropped : string -> bool.


End Server.

(** ** Vocabulary of the specification for the dispatcher *)

(** The 404 text response: status 404, [text/plain], body ["Not found"]. *)
Definition not_found_response : Response :=
  {| response := "Not found"; status := 404%Z; headers := [];
     mimetype := "text/plain" |}.

(** The two route namespaces and the page template of each. *)
Inductive namespace : Type := ns_v | ns_m.

Definition prefix_of (ns : namespace) : string :=
  match ns with ns_v => "v" | ns_m => "m" end.

Definition template_of (ns : namespace) : string :=
  match ns with ns_v => "viewer.html" | ns_m => "plain.html" end.

Definition path_route (ns : namespace) (filename : string) : route :=
  match ns with ns_v => view filename | ns_m => mdplain filename end.

Definition index_route (ns : namespace) : route :=
  match ns with ns_v => index | ns_m => index_mdplain end.

Definition refreshes (r : route) : bool :=
  match r with
  | index | index_mdplain => true
  | _ => false
  end.

(** [quiet m]: running [m] only appends calls to the trace, none of them a
    refresh. *)
Definition quiet {S A : Type} (m : M S A) : Prop :=
  forall w, exists evs,
    trace (snd (m w)) = trace w ++ evs /\ refresh_count evs = 0.

(** The page response: status 200, [text/html]. *)
Definition html_response (html : string) : Response :=
  {| response := html; status := 200%Z; headers := []; mimetype := "text/html" |}.

(** The raw text response: status 200, [text/plain]. *)
Definition text_response (text : string) : Response :=
  {| response := text; status := 200%Z; headers := [];
     mimetype := "text/plain" |}.

(** ** A small environment

    A provider over the scenario tree with three files, a matcher for the
    rules of [url_map], and templates that only wrap their input.  It serves
    to run the model on concrete requests. *)

Module Demo.

Record state : Type := mkState {
  snapshot : list TreeNode;
  scans : nat
}.

Definition files : list (string * string) :=
  [("docs/a.md", "# A"); ("docs/b.md", "# B"); ("readme.md", "# Readme")].

Fixpoint lookup (key : string) (l : list (string * string)) : option string :=
  match l with
  | [] => None
  | (k, v) :: rest => if k =? key then Some v else lookup key rest
  end.

(** [strip pre s]: the rest of [s] after the prefix [pre]. *)
Fixpoint strip (pre s : string) : option string :=
  match pre, s with
  | EmptyString, _ => Some s
  | String a pre', String b s' =>
      if Ascii.eqb a b then strip pre' s' else None
  | String _ _, EmptyString => None
  end.

Definition under (pre path : string) (k : string -> route) : option route :=
  match strip pre path with
  | Some (String c rest) =>
      if Ascii.eqb c slash then None else Some (k (String c rest))
  | _ => None
  end.

Definition first_of (l : list (option route)) : outcome route :=
  match
    fold_right (fun o acc => match o with Some r => Some r | None => acc end)
               None l
  with
  | Some r => Return r
  | None => Raise (NotFound "no rule matches")
  end.

Definition exact (pat path : string) (r : route) : option route :=
  if pat =? path then Some r else None.

Definition match_path (path : string) : outcome route :=
  first_of
    [exact "/" path home;
     under "/static/" path static;
     exact "/v/" path index;
     under "/v/" path view;
     exact "/m/" path index_mdplain;
     under "/m/" path mdplain;
     under "/t/" path mdtext;
     exact "/api/tree" path dirtree;
     exact "/api/search" path search].

Definition known_template (n : string) : bool :=
  (n =? "tree.md") || (n =? "viewer.html") || (n =? "plain.html").

Definition listing (tree : list TreeNode) (path root : string) : string :=
  String.concat ""
    (map (fun n => ("- [" ++ name n ++ "](/" ++ path ++ root ++ ")")%string)
         tree).

Definition env : Env state :=
  fun c =>
    match c as c0 return state -> outcome (answer c0) * state with
    | url_map_bind _ => fun s => (Return tt, s)
    | adapter_match request => fun s => (match_path (path_info request), s)
    | state_is_file filename => fun s =>
        (Return (match lookup filename files with
                 | Some _ => true
                 | None => false
                 end), s)
    | state_get_content filename raw => fun s =>
        (match lookup filename files with
         | Some text =>
             match raw with
             | Some true => Return text
             | _ => Return ("<p>" ++ text ++ "</p>")%string
             end
         | None =>
             match get_children (snapshot s) filename with
             | Some _ => Raise (Failure "IsADirectoryError")
             | None => Raise (NotFound filename)
             end
         end, s)
    | state_get_tree => fun s => (Return (snapshot s), s)
    | state_refresh => fun s =>
        (Return tt, mkState scenario_tree (Datatypes.S (scans s)))
    | state_search query => fun s =>
        (match query with
         | Some q => Return (JArr [JStr q])
         | None => Raise (HTTPException 400 "Bad Request")
         end, s)
    | env_get_template template => fun s =>
        (if known_template template then Return template
         else Raise (Failure "TemplateNotFound"), s)
    | template_render t ctx => fun s =>
        (match ctx with
         | content_ctx content => Return ("<" ++ t ++ ">" ++ content)%string
         | tree_ctx tree path root => Return (listing tree path root)
         end, s)
    | MarkdownParser_parse md => fun s => (Return md, s)
    | json_dumps v => fun s =>
        (match v with
         | of_tree tree => Return (String.concat "," (map name tree))
         | of_result _ => Return "[]"
         end, s)
    end.

Definition start : world state := mkWorld (mkState scenario_tree 1) [].

(** The same environment for a request whose Host header cannot be bound:
    werkzeug raises [BadHost], an [HTTPException] of status 400. *)
Definition bad_host : Env state :=
  fun c =>
    match c as c0 return state -> outcome (answer c0) * state with
    | url_map_bind _ => fun s => (Raise (HTTPException 400 "Bad Request"), s)
    | c' => env c'
    end.



Definition get (path : string) : Request := mkRequest path [].

End Demo.

(** ** Vocabulary for the further properties *)

(** A path made of separators only. *)
Fixpoint all_slashes (s : string) : bool :=
  match s with
  | EmptyString => true
  | String c r => Ascii.eqb c slash && all_slashes r
  end.

(** A name the walk can look up: non-empty and without separator. *)
Definition segment_name (s : string) : bool := slash_free s && truthy s.

Definition is_match (c : call) : bool :=
  match c with
  | adapter_match _ => true
  | _ => false
  end.

Definition is_get_tree (c : call) : bool :=
  match c with
  | state_get_tree => true
  | _ => false
  end.

Definition is_get_content (c : call) : bool :=
  match c with
  | state_get_content _ _ => true
  | _ => false
  end.

Definition is_bind (c : call) : bool :=
  match c with
  | url_map_bind _ => true
  | _ => false
  end.

(** The calls a handler may make: neither the binding nor the match. *)
Definition handler_call (c : call) : bool :=
  negb (is_bind c) && negb (is_match c).

Definition not_match (c : call) : bool := negb (is_match c).
Definition not_get_tree (c : call) : bool := negb (is_get_tree c).
Definition not_get_content (c : call) : bool := negb (is_get_content c).

(** [emits P m]: running [m] only appends calls to the trace, all of them
    satisfying [P]. *)
Definition emits {S A : Type} (P : call -> bool) (m : M S A) : Prop :=
  forall w, exists evs,
    trace (snd (m w)) = trace w ++ evs /\ forallb P evs = true.

(** [returns Q m]: whatever [m] returns satisfies [Q]. *)
Definition returns {S A : Type} (Q : A -> Prop) (m : M S A) : Prop :=
  forall w a w', m w = (Return a, w') -> Q a.

(** The redirect of the home route: status 302, [Location: /v]. *)
Definition redirect_response : Response :=
  {| response := ""; status := 302%Z; headers := [("Location", "/v")];
     mimetype := "text/plain" |}.

(** The JSON response: status 200, [application/json]. *)
Definition json_response (body : string) : Response :=
  {| response := body; status := 200%Z; headers := [];
     mimetype := "application/json" |}.

(** The mimetype a route answers with on success. *)
Definition content_type (r : route) : string :=
  match r with
  | dirtree | search => "application/json"
  | mdtext _ => "text/plain"
  | _ => "text/html"
  end.

(** The responses a route can give: the 404 text response, the redirect of
    the home route, or a 200 of the route's mimetype without extra headers. *)
Definition shaped (r : route) (resp : Response) : Prop :=
  resp = not_found_response \/
  (r = home /\ resp = redirect_response) \/
  (r <> home /\ status resp = 200%Z /\ headers resp = [] /\
   mimetype resp = content_type r).

(** * Properties of the resolver *)

Section Resolver.

Lemma is_directory_eq (n : TreeNode) :
  is_directory n = true <-> type n = "directory".
Proof. unfold is_directory. apply String.eqb_eq. Qed.

Lemma or_empty_id (nodes : list TreeNode) :
  match nodes with [] => [] | _ :: _ => nodes end = nodes.
Proof. destruct nodes; reflexivity. Qed.

(** The scan stops at a directory of the list that bears the name. *)
Lemma find_dir_some nodes part d :
  find_dir nodes part = Some d ->
  In d nodes /\ is_directory d = true /\ name d = part.
Proof.
  induction nodes as [|x rest IH]; simpl; [discriminate|].
  destruct (andb (type x =? "directory") (name x =? part)) eqn:E.
  - intros H. injection H as <-.
    apply andb_true_iff in E as [Ht Hn].
    apply String.eqb_eq in Hn. auto.
  - intros H. destruct (IH H) as (Hin & Hd & Hn). auto.
Qed.

(** The scan fails exactly when no directory of the list bears the name. *)
Lemma find_dir_none nodes part :
  find_dir nodes part = None <->
  (forall n, In n nodes -> is_directory n = true -> name n <> part).
Proof.
  induction nodes as [|x rest IH]; simpl.
  - split; [intros _ n []|reflexivity].
  - destruct (andb (type x =? "directory") (name x =? part)) eqn:E.
    + split; [discriminate|].
      intros H. apply andb_true_iff in E as [Ht Hn].
      apply String.eqb_eq in Hn. exfalso. apply (H x); auto.
    + rewrite IH. split.
      * intros H n [<-|Hin] Hd Hn; [|exact (H n Hin Hd Hn)].
        unfold is_directory in Hd. rewrite Hd in E.
        apply String.eqb_eq in Hn. rewrite Hn in E. discriminate.
      * intros H n Hin. apply H. right. exact Hin.
Qed.

(** Nodes that are not a directory named [part] are passed over, and the
    scan yields the first directory named [part] after them. *)
Lemma find_dir_skip pre d post part :
  (forall n, In n pre -> is_directory n = true -> name n <> part) ->
  is_directory d = true -> name d = part ->
  find_dir (pre ++ d :: post) part = Some d.
Proof.
  intros Hpre Hd Hn. induction pre as [|x pre IH]; simpl.
  - unfold is_directory in Hd. rewrite Hd.
    apply String.eqb_eq in Hn. rewrite Hn. reflexivity.
  - destruct (andb (type x =? "directory") (name x =? part)) eqn:E.
    + apply andb_true_iff in E as [Ht Hx]. apply String.eqb_eq in Hx.
      exfalso. apply (Hpre x); simpl; auto.
    + apply IH. intros n Hin. apply Hpre. right. exact Hin.
Qed.

Lemma name_in_true s nodes :
  name_in s nodes = true <-> exists n, In n nodes /\ name n = s.
Proof.
  induction nodes as [|x rest IH]; simpl.
  - split; [discriminate|intros (n & [] & _)].
  - rewrite orb_true_iff, IH, String.eqb_eq. split.
    + intros [H|(n & Hin & Hn)]; [exists x|exists n]; auto.
    + intros (n & [<-|Hin] & Hn); [left|right; exists n]; auto.
Qed.

Lemma unique_names_inj nodes a b :
  unique_names nodes = true ->
  In a nodes -> In b nodes -> name a = name b -> a = b.
Proof.
  induction nodes as [|x rest IH]; simpl; [intros _ []|].
  intros H Ha Hb Hn. apply andb_true_iff in H as [Hx Hrest].
  apply negb_true_iff in Hx.
  assert (Hno : forall n, In n rest -> name n <> name x).
  { intros n Hin Heq.
    assert (name_in (name x) rest = true)
      by (apply name_in_true; exists n; auto).
    congruence. }
  destruct Ha as [<-|Ha], Hb as [<-|Hb]; auto.
  - exfalso. apply (Hno b Hb). auto.
  - exfalso. apply (Hno a Ha). auto.
Qed.

Lemma wf_tree_unique tree : wf_tree tree = true -> unique_names tree = true.
Proof. unfold wf_tree. intros H. apply andb_true_iff in H. tauto. Qed.

Lemma wf_tree_children tree d :
  wf_tree tree = true -> In d tree ->
  wf_tree (get_children_or_empty d) = true.
Proof.
  unfold wf_tree. intros H Hin. apply andb_true_iff in H as [_ H].
  rewrite forallb_forall in H. specialize (H d Hin).
  destruct d as [t s [c|]]; simpl in *; auto.
Qed.

(** Under the invariant a path addresses at most one node. *)
Lemma addresses_functional tree segs a :
  addresses tree segs a ->
  forall b, wf_tree tree = true -> addresses tree segs b -> a = b.
Proof.
  induction 1 as [nodes seg n Hin Hn|nodes seg d rest n Hin Hn Hd Hrest IH];
    intros b Hwf Hb; inversion Hb; subst.
  - apply (unique_names_inj nodes); auto using wf_tree_unique.
  - match goal with H : addresses _ [] _ |- _ => inversion H end.
  - inversion Hrest.
  - match goal with
    | H1 : In ?d' nodes, H2 : name ?d' = name d |- _ =>
        assert (d' = d)
          by (apply (unique_names_inj nodes); auto using wf_tree_unique);
        subst d'
    end.
    apply IH; eauto using wf_tree_children.
Qed.

(** The walk reaches the directory a path addresses. *)
Lemma descend_addressed tree segs d :
  addresses tree segs d -> wf_tree tree = true -> is_directory d = true ->
  descend tree segs = Some (get_children_or_empty d).
Proof.
  induction 1 as [nodes seg n Hin Hn|nodes seg x rest n Hin Hn Hd Hrest IH];
    intros Hwf Hdir; simpl.
  - destruct (find_dir nodes seg) as [f|] eqn:E.
    + apply find_dir_some in E as (Hf & _ & Hfn).
      assert (f = n)
        by (apply (unique_names_inj nodes);
            auto using wf_tree_unique; congruence).
      subst f. now rewrite or_empty_id.
    + exfalso. rewrite find_dir_none in E. exact (E n Hin Hdir Hn).
  - destruct (find_dir nodes seg) as [f|] eqn:E.
    + apply find_dir_some in E as (Hf & _ & Hfn).
      assert (f = x)
        by (apply (unique_names_inj nodes);
            auto using wf_tree_unique; congruence).
      subst f. apply IH; eauto using wf_tree_children.
    + exfalso. rewrite find_dir_none in E. exact (E x Hin Hd Hn).
Qed.

(** The walk fails when the path addresses no directory. *)
Lemma descend_unaddressed segs :
  segs <> [] ->
  forall tree,
    (forall n, addresses tree segs n -> is_directory n = false) ->
    descend tree segs = None.
Proof.
  induction segs as [|seg rest IH]; [congruence|]. intros _ tree H. simpl.
  destruct (find_dir tree seg) as [f|] eqn:E; [|reflexivity].
  apply find_dir_some in E as (Hin & Hd & Hn).
  destruct rest as [|seg' rest'].
  - specialize (H f (addresses_last _ _ _ Hin Hn)). congruence.
  - apply IH; [discriminate|]. intros n Hn'. apply H.
    eapply addresses_step; eauto.
Qed.

Lemma get_children_parts tree path :
  get_children tree path =
  match path_parts path with
  | [] => Some tree
  | _ :: _ => descend tree (path_parts path)
  end.
Proof. reflexivity. Qed.

End Resolver.

(** * Properties of path splitting *)

Section Paths.

Lemma split_not_nil sep s : split sep s <> [].
Proof.
  destruct s as [|c r]; simpl; [discriminate|].
  destruct (Ascii.eqb c sep); [discriminate|].
  destruct (split sep r); discriminate.
Qed.

Lemma split_slash_free s :
  slash_free s = true -> split slash s = [s].
Proof.
  induction s as [|c r IH]; simpl; [reflexivity|].
  intros H. apply andb_true_iff in H as [Hc Hr].
  apply negb_true_iff in Hc. rewrite Hc, (IH Hr). reflexivity.
Qed.

Lemma split_append s r :
  slash_free s = true ->
  split slash (s ++ String slash r) = s :: split slash r.
Proof.
  induction s as [|c s IH]; simpl.
  - intros _. reflexivity.
  - intros H. apply andb_true_iff in H as [Hc Hs].
    apply negb_true_iff in Hc. rewrite Hc, (IH Hs). reflexivity.
Qed.

Lemma split_pieces_slash_free s :
  Forall (fun p => slash_free p = true) (split slash s).
Proof.
  induction s as [|c r IH]; simpl.
  - repeat constructor.
  - destruct (Ascii.eqb c slash) eqn:E.
    + constructor; [reflexivity|exact IH].
    + destruct (split slash r) as [|h t].
      * repeat constructor. simpl. now rewrite E.
      * inversion IH; subst. constructor; [|assumption].
        simpl. rewrite E. assumption.
Qed.

Lemma path_parts_segments path : Forall segment (path_parts path).
Proof.
  unfold path_parts. apply Forall_forall. intros p Hin.
  apply filter_In in Hin as [Hin Ht]. split; [|exact Ht].
  pose proof (split_pieces_slash_free path) as H.
  rewrite Forall_forall in H. exact (H p Hin).
Qed.

(** Joining segments with single separators and splitting again gives the
    segments back. *)
Lemma path_parts_concat segs :
  Forall segment segs -> path_parts (String.concat "/" segs) = segs.
Proof.
  induction segs as [|x rest IH]; intros H; [reflexivity|].
  inversion H as [|? ? [Hx Ht] Hrest]; subst.
  destruct rest as [|y rest'].
  - simpl. unfold path_parts. rewrite (split_slash_free _ Hx).
    simpl. now rewrite Ht.
  - change (String.concat "/" (x :: y :: rest'))
      with (x ++ String slash (String.concat "/" (y :: rest')))%string.
    unfold path_parts. rewrite (split_append _ _ Hx).
    simpl filter. rewrite Ht. f_equal. exact (IH Hrest).
Qed.

Lemma path_parts_normalize path :
  path_parts (normalize path) = path_parts path.
Proof. apply path_parts_concat, path_parts_segments. Qed.

Lemma get_children_same_parts tree p q :
  path_parts p = path_parts q -> get_children tree p = get_children tree q.
Proof. intros H. rewrite !get_children_parts, H. reflexivity. Qed.

End Paths.

(** * The claims about the resolver *)

Section ResolverClaims.

(** C1: in a tree whose sibling names are unique, a path without segments
    yields the root list, a path that addresses an existing directory
    yields exactly that directory's child list, in its stored order, and a
    path that addresses a node that is not a directory, or no node at all,
    yields [None]. *)
Theorem get_children_resolves (tree : list TreeNode) (p : string) :
  wf_tree tree = true ->
  (path_parts p = [] -> get_children tree p = Some tree) /\
  (forall d, addresses tree (path_parts p) d -> is_directory d = true ->
             get_children tree p = Some (get_children_or_empty d)) /\
  (forall f, addresses tree (path_parts p) f -> is_directory f = false ->
             get_children tree p = None) /\
  (path_parts p <> [] -> (forall n, ~ addresses tree (path_parts p) n) ->
   get_children tree p = None).
Proof.
  intros Hwf. rewrite get_children_parts. repeat split.
  - intros ->. reflexivity.
  - intros d Hd Hdir. rewrite (descend_addressed _ _ _ Hd Hwf Hdir).
    destruct (path_parts p); [inversion Hd|reflexivity].
  - intros f Hf Hfile.
    assert (Hne : path_parts p <> []) by (intros E; rewrite E in Hf; inversion Hf).
    rewrite (descend_unaddressed _ Hne tree).
    + destruct (path_parts p); [congruence|reflexivity].
    + intros n Hn. now rewrite (addresses_functional _ _ _ Hn f Hwf Hf).
  - intros Hne Hnone. rewrite (descend_unaddressed _ Hne tree).
    + destruct (path_parts p); [congruence|reflexivity].
    + intros n Hn. destruct (Hnone n Hn).
Qed.

Lemma get_children_resolves_witness :
  wf_tree scenario_tree = true /\
  get_children scenario_tree "/docs/" = Some [file "a.md"; file "b.md"] /\
  get_children scenario_tree "readme.md" = None.
Proof.
  split; [reflexivity|].
  destruct (get_children_resolves scenario_tree "/docs/" eq_refl)
    as (_ & Hdir & _).
  destruct (get_children_resolves scenario_tree "readme.md" eq_refl)
    as (_ & _ & Hfile & _).
  split.
  - apply (Hdir (dir "docs" [file "a.md"; file "b.md"])); [|reflexivity].
    apply addresses_last; simpl; auto.
  - apply (Hfile (file "readme.md")); [|reflexivity].
    apply addresses_last; simpl; auto.
Defined.

(** C4: the empty path and ["/"] both yield the root list, and every path
    resolves as the path with its redundant separators removed does. *)
Theorem get_children_separators (tree : list TreeNode) (p : string) :
  get_children tree "" = Some tree /\
  get_children tree "/" = Some tree /\
  get_children tree p = get_children tree (normalize p) /\
  normalize "a//b/" = "a/b" /\ normalize "/a/b" = "a/b" /\
  normalize "a/b/" = "a/b" /\ normalize "a/b" = "a/b".
Proof.
  repeat split.
  apply get_children_same_parts. symmetry. apply path_parts_normalize.
Qed.

(** C5: in a tree whose sibling names are unique, a path that addresses an
    existing directory without children, the key absent or the list empty,
    yields the empty list and not [None], whereas a path that addresses no
    directory yields [None]: the two results differ. *)
Theorem get_children_empty_directory (tree : list TreeNode) (p : string)
    (d : TreeNode) :
  wf_tree tree = true ->
  addresses tree (path_parts p) d -> is_directory d = true ->
  children d = None \/ children d = Some [] ->
  get_children tree p = Some [] /\
  get_children tree p <> None /\
  (forall q, path_parts q <> [] ->
             (forall n, addresses tree (path_parts q) n ->
                        is_directory n = false) ->
             get_children tree q = None /\
             get_children tree q <> get_children tree p).
Proof.
  intros Hwf Hd Hdir Hempty.
  assert (E : get_children tree p = Some []).
  { rewrite get_children_parts, (descend_addressed _ _ _ Hd Hwf Hdir).
    unfold get_children_or_empty.
    destruct (path_parts p); [inversion Hd|].
    destruct Hempty as [-> | ->]; reflexivity. }
  rewrite E. split; [reflexivity|]. split; [discriminate|].
  intros q Hq Hnone.
  assert (Eq : get_children tree q = None).
  { rewrite get_children_parts, (descend_unaddressed _ Hq tree Hnone).
    destruct (path_parts q); [congruence|reflexivity]. }
  rewrite Eq. split; [reflexivity|discriminate].
Qed.

Lemma get_children_empty_directory_witness :
  get_children sparse_tree "bare" = Some [] /\
  get_children sparse_tree "empty/" = Some [] /\
  get_children sparse_tree "gone" = None.
Proof.
  assert (Hb : addresses sparse_tree (path_parts "bare")
                 (Node "directory" "bare" None))
    by (apply addresses_last; simpl; auto).
  assert (He : addresses sparse_tree (path_parts "empty/") (dir "empty" []))
    by (apply addresses_last; simpl; auto).
  destruct (get_children_empty_directory sparse_tree "bare" _
              eq_refl Hb eq_refl (or_introl eq_refl)) as (H1 & _ & H3).
  destruct (get_children_empty_directory sparse_tree "empty/" _
              eq_refl He eq_refl (or_intror eq_refl)) as (H2 & _).
  split; [exact H1|]. split; [exact H2|].
  apply (H3 "gone"); [discriminate|].
  intros n Hn. inversion Hn; subst; simpl in *.
  - repeat match goal with
           | H : _ \/ _ |- _ => destruct H
           | H : False |- _ => destruct H
           end; subst; simpl in *; try discriminate; reflexivity.
  - match goal with H : addresses _ [] _ |- _ => inversion H end.
Defined.

End ResolverClaims.

(** * The per-segment scan *)

Section Scan.

(** A successful scan splits the list at the first directory of that
    name. *)
Lemma find_dir_first nodes part d :
  find_dir nodes part = Some d ->
  exists pre post,
    nodes = pre ++ d :: post /\
    (forall n, In n pre -> is_directory n = true -> name n <> part).
Proof.
  induction nodes as [|x rest IH]; simpl; [discriminate|].
  destruct (andb (type x =? "directory") (name x =? part)) eqn:E.
  - intros H. injection H as <-. exists [], rest. split; [reflexivity|].
    intros n [].
  - intros H. destruct (IH H) as (pre & post & -> & Hpre).
    exists (x :: pre), post. split; [reflexivity|].
    intros n [<-|Hin] Hd Hn; [|exact (Hpre n Hin Hd Hn)].
    unfold is_directory in Hd. rewrite Hd in E.
    apply String.eqb_eq in Hn. rewrite Hn in E. discriminate.
Qed.

(** A node that is not a directory is invisible to the scan. *)
Lemma find_dir_ignores pre f post part :
  is_directory f = false ->
  find_dir (pre ++ f :: post) part = find_dir (pre ++ post) part.
Proof.
  intros Hf. induction pre as [|x pre IH]; simpl.
  - unfold is_directory in Hf. rewrite Hf. reflexivity.
  - rewrite IH. reflexivity.
Qed.

(** C10: for a path whose first segment is [part], nodes that are not
    directories never influence the walk: removing one from the list
    leaves the result unchanged; when some directory of the list is named
    [part], the walk continues in the children of the first such directory
    in stored order, whatever files named [part] precede it; and the walk
    fails at this segment exactly when no directory of the list is named
    [part]. *)
Theorem scan_considers_directories_only (tree : list TreeNode)
    (p part : string) (rest : list string) :
  path_parts p = part :: rest ->
  (forall pre f post, tree = pre ++ f :: post -> is_directory f = false ->
                      get_children tree p = get_children (pre ++ post) p) /\
  (forall pre d post,
      tree = pre ++ d :: post ->
      (forall n, In n pre -> is_directory n = true -> name n <> part) ->
      is_directory d = true -> name d = part ->
      get_children tree p = descend (get_children_or_empty d) rest) /\
  ((exists n, In n tree /\ is_directory n = true /\ name n = part) ->
   exists pre d post,
     tree = pre ++ d :: post /\
     (forall n, In n pre -> is_directory n = true -> name n <> part) /\
     is_directory d = true /\ name d = part /\
     get_children tree p = descend (get_children_or_empty d) rest) /\
  (find_dir tree part = None <->
   (forall n, In n tree -> is_directory n = true -> name n <> part)) /\
  (find_dir tree part = None -> get_children tree p = None).
Proof.
  intros Hp.
  assert (Hg : forall t, get_children t p =
                         match find_dir t part with
                         | None => None
                         | Some found =>
                             descend (get_children_or_empty found) rest
                         end).
  { intros t. rewrite get_children_parts, Hp. reflexivity. }
  split; [|split; [|split; [|split]]].
  - intros pre f post -> Hf. now rewrite !Hg, find_dir_ignores.
  - intros pre d post -> Hpre Hd Hn.
    now rewrite Hg, (find_dir_skip _ _ _ _ Hpre Hd Hn).
  - intros (n & Hin & Hd & Hn).
    destruct (find_dir tree part) as [d|] eqn:E.
    + destruct (find_dir_first _ _ _ E) as (pre & post & Ht & Hpre).
      destruct (find_dir_some _ _ _ E) as (_ & Hdd & Hdn).
      exists pre, d, post. rewrite Hg, E. auto.
    + rewrite find_dir_none in E. destruct (E n Hin Hd Hn).
  - apply find_dir_none.
  - intros E. now rewrite Hg, E.
Qed.

Lemma scan_considers_directories_only_witness :
  path_parts "a" = ["a"] /\
  get_children shadowed_tree "a" = Some [file "x"] /\
  get_children shadowed_tree "a" =
    get_children [dir "a" [file "x"]; dir "a" [file "y"]] "a" /\
  get_children [file "a"] "a" = None.
Proof.
  destruct (scan_considers_directories_only shadowed_tree "a" "a" []
              eq_refl) as (Hfile & Hdir & _).
  destruct (scan_considers_directories_only [file "a"] "a" "a" []
              eq_refl) as (_ & _ & _ & Hnone & Hfail).
  split; [reflexivity|]. split; [|split].
  - apply (Hdir [file "a"] (dir "a" [file "x"]) [dir "a" [file "y"]]);
      try reflexivity.
    intros n [<-|[]] Hd. discriminate.
  - apply (Hfile [] (file "a") [dir "a" [file "x"]; dir "a" [file "y"]]);
      reflexivity.
  - apply Hfail, Hnone. intros n [<-|[]] Hd. discriminate.
Defined.

(** Without the invariant of the data model the walk still takes the first
    directory of the name: a file and a second directory named ["a"] are
    addressed by the path but not reached. *)
Remark shadowed_nodes_not_reached :
  wf_tree shadowed_tree = false /\
  addresses shadowed_tree (path_parts "a") (file "a") /\
  addresses shadowed_tree (path_parts "a") (dir "a" [file "y"]) /\
  get_children shadowed_tree "a" = Some [file "x"].
Proof.
  repeat split; apply addresses_last; simpl; auto.
Qed.

End Scan.

(** * Properties of the dispatcher *)

Section Dispatcher.

Context {S : Type}.
Variable env : Env S.

Lemma perform_eq (c : call) (w : world S) r s' :
  env c (ext w) = (r, s') ->
  perform env c w = (r, mkWorld s' (trace w ++ [c])).
Proof. unfold perform. intros ->. reflexivity. Qed.

Lemma bind_return {A B} (m : M S A) (k : A -> M S B) w a w' :
  m w = (Return a, w') -> bind m k w = k a w'.
Proof. unfold bind. intros ->. reflexivity. Qed.

Lemma bind_raise {A B} (m : M S A) (k : A -> M S B) w e w' :
  m w = (Raise e, w') -> bind m k w = (Raise e, w').
Proof. unfold bind. intros ->. reflexivity. Qed.

(** What [dispatch] makes of the outcome of its [try] body. *)
Lemma dispatch_outcome request w :
  dispatch env request w =
  match try_body env request w with
  | (Return r, w') => (Return r, w')
  | (Raise (NotFound _), w') => (Return (reply_response not_found_response), w')
  | (Raise (HTTPException code body), w') =>
      (Return (reply_exception code body), w')
  | (Raise (Failure cls), w') => (Raise (Failure cls), w')
  end.
Proof.
  unfold dispatch, try_except.
  destruct (try_body env request w) as [[r|[d|code body|cls]] w'];
    reflexivity.
Qed.

Lemma try_body_handler request w r w1 :
  perform env (adapter_match request) w = (Return r, w1) ->
  try_body env request w =
  match handler env r request w1 with
  | (Return resp, w2) => (Return (reply_response resp), w2)
  | (Raise e, w2) => (Raise e, w2)
  end.
Proof.
  intros H. unfold try_body. rewrite (bind_return _ _ _ _ _ H).
  unfold bind. destruct (handler env r request w1) as [[resp|e] w2];
    reflexivity.
Qed.

(** *** Calls that leave the snapshot alone *)

Lemma refresh_count_app l1 l2 :
  refresh_count (l1 ++ l2) = refresh_count l1 + refresh_count l2.
Proof. unfold refresh_count. now rewrite filter_app, length_app. Qed.

Lemma quiet_ret {A} (a : A) : quiet (@ret S A a).
Proof. intros w. exists []. simpl. now rewrite app_nil_r. Qed.

Lemma quiet_raise {A} (e : exn) : quiet (@raise S A e).
Proof. intros w. exists []. simpl. now rewrite app_nil_r. Qed.

Lemma quiet_perform (c : call) : is_refresh c = false -> quiet (perform env c).
Proof.
  intros Hc w. exists [c]. unfold perform.
  destruct (env c (ext w)) as [r s']. simpl. split; [reflexivity|].
  unfold refresh_count. simpl. now rewrite Hc.
Qed.

Lemma quiet_bind {A B} (m : M S A) (k : A -> M S B) :
  quiet m -> (forall a, quiet (k a)) -> quiet (bind m k).
Proof.
  intros Hm Hk w. destruct (Hm w) as (e1 & H1 & C1). unfold bind.
  destruct (m w) as [[a|e] w1]; simpl in H1.
  - destruct (Hk a w1) as (e2 & H2 & C2). exists (e1 ++ e2).
    rewrite H2, H1, app_assoc, refresh_count_app, C1, C2. auto.
  - exists e1. auto.
Qed.

Lemma quiet_try_except {A} (m : M S A) (h : exn -> M S A) :
  quiet m -> (forall e, quiet (h e)) -> quiet (try_except m h).
Proof.
  intros Hm Hh w. destruct (Hm w) as (e1 & H1 & C1). unfold try_except.
  destruct (m w) as [[a|e] w1]; simpl in H1.
  - exists e1. auto.
  - destruct (Hh e w1) as (e2 & H2 & C2). exists (e1 ++ e2).
    rewrite H2, H1, app_assoc, refresh_count_app, C1, C2. auto.
Qed.

End Dispatcher.

Create HintDb quiet.
#[export] Hint Resolve quiet_ret quiet_raise quiet_perform quiet_bind
  quiet_try_except : quiet.
#[export] Hint Extern 1 (is_refresh _ = false) => reflexivity : quiet.

(** * The claims about the dispatcher *)

Section DispatcherClaims.

Context {S : Type}.
Variable env : Env S.

(** C6: when no rule matches, the adapter raising [NotFound], [dispatch]
    returns the response with status 404, mimetype [text/plain] and body
    ["Not found"]; and [render_tree] returns the same response when the
    resolver finds no directory at the path. *)
Theorem not_found_shape :
  (forall request w d s1,
      env (adapter_match request) (ext w) = (Raise (NotFound d), s1) ->
      dispatch env request w =
      (Return (reply_response not_found_response),
       mkWorld s1 (trace w ++ [adapter_match request]))) /\
  (forall template prefix filename w tree s1,
      env state_get_tree (ext w) = (Return tree, s1) ->
      get_children tree filename = None ->
      render_tree env template prefix filename w =
      (Return not_found_response, mkWorld s1 (trace w ++ [state_get_tree]))) /\
  status not_found_response = 404%Z /\
  mimetype not_found_response = "text/plain" /\
  response not_found_response = "Not found".
Proof.
  repeat split.
  - intros request w d s1 H. rewrite dispatch_outcome.
    unfold try_body. rewrite (bind_raise _ _ _ _ _ (perform_eq _ _ _ _ _ H)).
    reflexivity.
  - intros template prefix filename w tree s1 H Hnone.
    unfold render_tree. rewrite (bind_return _ _ _ _ _ (perform_eq _ _ _ _ _ H)).
    rewrite Hnone. reflexivity.
Qed.

(** C7: when the handler of the matched route raises an exception that
    carries an HTTP status and is not [NotFound], [dispatch] returns that
    very exception as its reply, and the server is handed its status and
    body. *)
Theorem http_exception_passes_through request w r s1 code body w2 :
  env (adapter_match request) (ext w) = (Return r, s1) ->
  handler env r request (mkWorld s1 (trace w ++ [adapter_match request])) =
    (Raise (HTTPException code body), w2) ->
  dispatch env request w = (Return (reply_exception code body), w2) /\
  wsgi_app env request w = (Return (code, body), w2).
Proof.
  intros Hm Hh.
  assert (E : dispatch env request w =
              (Return (reply_exception code body), w2)).
  { rewrite dispatch_outcome, (try_body_handler _ _ _ _ _ (perform_eq _ _ _ _ _ Hm)), Hh.
    reflexivity. }
  split; [exact E|]. unfold wsgi_app.
  rewrite (bind_return _ _ _ _ _ E). reflexivity.
Qed.

(** When the handler of the matched route raises an exception that carries
    no HTTP status, the [try] statement does not catch it: it is raised
    again, in the state the handler left. *)
Theorem failure_propagates request w r s1 cls w2 :
  env (adapter_match request) (ext w) = (Return r, s1) ->
  handler env r request (mkWorld s1 (trace w ++ [adapter_match request])) =
    (Raise (Failure cls), w2) ->
  dispatch env request w = (Raise (Failure cls), w2) /\
  wsgi_app env request w = (Raise (Failure cls), w2).
Proof.
  intros Hm Hh.
  assert (E : dispatch env request w = (Raise (Failure cls), w2)).
  { rewrite dispatch_outcome, (try_body_handler _ _ _ _ _ (perform_eq _ _ _ _ _ Hm)), Hh.
    reflexivity. }
  split; [exact E|]. unfold wsgi_app.
  rewrite (bind_raise _ _ _ _ _ E). reflexivity.
Qed.

End DispatcherClaims.

Lemma not_found_shape_witness :
  dispatch Demo.env (Demo.get "/nothing") Demo.start =
    (Return (reply_response not_found_response),
     mkWorld (ext Demo.start) [adapter_match (Demo.get "/nothing")]) /\
  render_tree Demo.env "viewer.html" "v" "missing" Demo.start =
    (Return not_found_response, mkWorld (ext Demo.start) [state_get_tree]).
Proof.
  destruct (not_found_shape Demo.env) as (Hroute & Hpath & _).
  split.
  - apply (Hroute (Demo.get "/nothing") Demo.start "no rule matches").
    reflexivity.
  - apply (Hpath "viewer.html" "v" "missing" Demo.start scenario_tree);
      reflexivity.
Defined.

Lemma http_exception_passes_through_witness :
  dispatch Demo.env (Demo.get "/api/search") Demo.start =
    (Return (reply_exception 400 "Bad Request"),
     mkWorld (ext Demo.start)
       [adapter_match (Demo.get "/api/search"); state_search None]) /\
  wsgi_app Demo.env (Demo.get "/api/search") Demo.start =
    (Return (400%Z, "Bad Request"),
     mkWorld (ext Demo.start)
       [adapter_match (Demo.get "/api/search"); state_search None]).
Proof.
  apply (http_exception_passes_through Demo.env (Demo.get "/api/search")
           Demo.start search (ext Demo.start)); reflexivity.
Defined.

Lemma failure_propagates_witness :
  dispatch Demo.env (Demo.get "/t/docs") Demo.start =
    (Raise (Failure "IsADirectoryError"),
     mkWorld (ext Demo.start)
       [adapter_match (Demo.get "/t/docs");
        state_get_content "docs" (Some true)]) /\
  wsgi_app Demo.env (Demo.get "/t/docs") Demo.start =
    (Raise (Failure "IsADirectoryError"),
     mkWorld (ext Demo.start)
       [adapter_match (Demo.get "/t/docs");
        state_get_content "docs" (Some true)]).
Proof.
  apply (failure_propagates Demo.env (Demo.get "/t/docs") Demo.start
           (mdtext "docs") (ext Demo.start)); reflexivity.
Defined.

(** * The claims about the handlers *)

(** Runs the model along the answers recorded in the hypotheses. *)
Ltac run_calls :=
  unfold dispatch, try_except, try_body, handler, on_view, on_mdplain,
    on_mdtext, handle_common, render_file, render_tree, render_markdown,
    bind, ret, raise, perform;
  cbn [ext trace];
  repeat match goal with
         | H : ?e ?c ?s = _ |- context [?e ?c ?s] => rewrite H; cbn [ext trace]
         | H : get_children _ _ = _ |- _ => rewrite H
         end;
  cbn [ext trace];
  rewrite <- ?app_assoc; cbn [app].

Section HandlerClaims.

Context {S : Type}.
Variable env : Env S.

(** C3: for a request matched to [/v/<path>] or [/m/<path>] the handler is
    [handle_common] with the template of the namespace; its first call asks
    the provider whether the path is a file; if so the file's content is
    fetched and rendered in that template; if not the tree is fetched and
    the path resolved: a failed resolution gives the 404 text response, a
    successful one the listing of the children rendered in that
    template. *)
Theorem path_route_file_or_listing (ns : namespace) (filename : string)
    (request : Request) (w : world S) (s1 : S) :
  env (adapter_match request) (ext w) = (Return (path_route ns filename), s1) ->
  handler env (path_route ns filename) request =
    handle_common env filename (template_of ns) (prefix_of ns) /\
  (forall s2 html s3 t s4 page s5,
      env (state_is_file filename) s1 = (Return true, s2) ->
      env (state_get_content filename None) s2 = (Return html, s3) ->
      env (env_get_template (template_of ns)) s3 = (Return t, s4) ->
      env (template_render t (content_ctx html)) s4 = (Return page, s5) ->
      dispatch env request w =
      (Return (reply_response (html_response page)),
       mkWorld s5
         (trace w ++
          [adapter_match request; state_is_file filename;
           state_get_content filename None;
           env_get_template (template_of ns);
           template_render t (content_ctx html)]))) /\
  (forall s2 tree s3,
      env (state_is_file filename) s1 = (Return false, s2) ->
      env state_get_tree s2 = (Return tree, s3) ->
      get_children tree filename = None ->
      dispatch env request w =
      (Return (reply_response not_found_response),
       mkWorld s3
         (trace w ++
          [adapter_match request; state_is_file filename; state_get_tree]))) /\
  (forall s2 tree s3 kids t s4 md s5 parsed s6 pt s7 page s8,
      env (state_is_file filename) s1 = (Return false, s2) ->
      env state_get_tree s2 = (Return tree, s3) ->
      get_children tree filename = Some kids ->
      env (env_get_template "tree.md") s3 = (Return t, s4) ->
      env (template_render t
             (tree_ctx kids (prefix_of ns) ("/" ++ filename))) s4 =
        (Return md, s5) ->
      env (MarkdownParser_parse md) s5 = (Return parsed, s6) ->
      env (env_get_template (template_of ns)) s6 = (Return pt, s7) ->
      env (template_render pt (content_ctx parsed)) s7 = (Return page, s8) ->
      dispatch env request w =
      (Return (reply_response (html_response page)),
       mkWorld s8
         (trace w ++
          [adapter_match request; state_is_file filename; state_get_tree;
           env_get_template "tree.md";
           template_render t
             (tree_ctx kids (prefix_of ns) ("/" ++ filename));
           MarkdownParser_parse md;
           env_get_template (template_of ns);
           template_render pt (content_ctx parsed)]))).
Proof.
  intros Hm. split; [destruct ns; reflexivity|].
  split; [|split]; intros; destruct ns;
    cbn [prefix_of template_of path_route] in *; run_calls; reflexivity.
Qed.

(** C9: for a request matched to [/t/<path>] the handler makes one call,
    [get_content(path, raw=True)], and neither asks [is_file] nor fetches
    the tree for the resolver; it returns the provider's text verbatim as
    [text/plain], and raises whatever the provider raises.  Only
    [dispatch] then turns a [NotFound] into the 404 text response, returns
    another HTTP exception as the reply, and lets any other failure
    through. *)
Theorem mdtext_reads_provider_directly (filename : string)
    (request : Request) (w : world S) (s1 : S) :
  env (adapter_match request) (ext w) = (Return (mdtext filename), s1) ->
  (forall w0,
      on_mdtext env request filename w0 =
      let (r, s') := env (state_get_content filename (Some true)) (ext w0) in
      (match r with
       | Return text => Return (text_response text)
       | Raise e => Raise e
       end,
       mkWorld s' (trace w0 ++ [state_get_content filename (Some true)]))) /\
  dispatch env request w =
  let (r, s2) := env (state_get_content filename (Some true)) s1 in
  (match r with
   | Return text => Return (reply_response (text_response text))
   | Raise (NotFound _) => Return (reply_response not_found_response)
   | Raise (HTTPException code body) => Return (reply_exception code body)
   | Raise (Failure cls) => Raise (Failure cls)
   end,
   mkWorld s2
     (trace w ++
      [adapter_match request; state_get_content filename (Some true)])).
Proof.
  intros Hm. split.
  - intros w0. unfold on_mdtext, bind, perform, ret.
    destruct (env (state_get_content filename (Some true)) (ext w0))
      as [[text|e] s']; reflexivity.
  - run_calls.
    destruct (env (state_get_content filename (Some true)) s1)
      as [[text|[d|code body|cls]] s2];
      cbn [ext trace]; rewrite <- ?app_assoc; reflexivity.
Qed.

End HandlerClaims.

(** * Which routes refresh *)

Section Refresh.

Context {S : Type}.
Variable env : Env S.

Lemma quiet_render_markdown template content :
  quiet (render_markdown env template content).
Proof. unfold render_markdown. auto 10 with quiet. Qed.

Lemma quiet_render_tree template prefix filename :
  quiet (render_tree env template prefix filename).
Proof.
  unfold render_tree. apply quiet_bind; [auto with quiet|]. intros snapshot.
  destruct (get_children snapshot filename);
    auto 10 using quiet_render_markdown with quiet.
Qed.

Lemma quiet_render_file template filename :
  quiet (render_file env template filename).
Proof. unfold render_file. auto using quiet_render_markdown with quiet. Qed.

Lemma quiet_handle_common filename template prefix :
  quiet (handle_common env filename template prefix).
Proof.
  unfold handle_common. apply quiet_bind; [auto with quiet|].
  intros [|]; auto using quiet_render_file, quiet_render_tree.
Qed.

(** Every handler but the two index handlers is quiet. *)
Lemma quiet_handler r request :
  refreshes r = false -> quiet (handler env r request).
Proof.
  destruct r; simpl; try discriminate; intros _;
    unfold on_home, on_view, on_mdplain, on_mdtext, on_dirtree, on_search;
    auto 10 using quiet_handle_common with quiet.
Qed.

(** A refresh followed by quiet calls. *)
Lemma refresh_then {A} (k : unit -> M S A) w :
  (forall u, quiet (k u)) ->
  exists rest,
    trace (snd (bind (perform env state_refresh) k w)) =
      trace w ++ state_refresh :: rest /\
    refresh_count rest = 0.
Proof.
  intros Hk. unfold bind, perform.
  destruct (env state_refresh (ext w)) as [[u|e] s1].
  - destruct (Hk u (mkWorld s1 (trace w ++ [state_refresh])))
      as (rest & H & C).
    exists rest. rewrite H. cbn [trace]. rewrite <- app_assoc. auto.
  - exists []. auto.
Qed.

Lemma index_handler_trace r request w :
  refreshes r = true ->
  exists rest,
    trace (snd (handler env r request w)) =
      trace w ++ state_refresh :: rest /\
    refresh_count rest = 0.
Proof.
  destruct r; simpl; try discriminate; intros _;
    unfold on_index, on_index_mdplain; apply refresh_then; auto 20 with quiet.
Qed.

(** The [except] clauses of [dispatch] make no call. *)
Lemma dispatch_trace request w :
  trace (snd (dispatch env request w)) =
  trace (snd (try_body env request w)).
Proof.
  rewrite dispatch_outcome.
  destruct (try_body env request w) as [[r|[d|code body|cls]] w'];
    reflexivity.
Qed.

Lemma try_body_trace request w :
  trace (snd (try_body env request w)) =
  match env (adapter_match request) (ext w) with
  | (Return r, s1) =>
      trace (snd (handler env r request
                    (mkWorld s1 (trace w ++ [adapter_match request]))))
  | (Raise _, _) => trace w ++ [adapter_match request]
  end.
Proof.
  unfold try_body, bind, perform.
  destruct (env (adapter_match request) (ext w)) as [[r|e] s1];
    [|reflexivity].
  destruct (handler env r request _) as [[resp|e] w2]; reflexivity.
Qed.

(** C8: the routes that refresh are the two index routes.  Handling a
    request matched to one of them calls refresh exactly once, right after
    the match and before every other call (the tree is read and rendered
    afterwards); handling a request matched to any other route, or to
    none, never calls refresh. *)
Theorem refresh_only_on_index (request : Request) (w : world S) :
  (forall r, refreshes r = true <-> r = index \/ r = index_mdplain) /\
  match env (adapter_match request) (ext w) with
  | (Return r, _) =>
      if refreshes r then
        exists rest,
          trace (snd (dispatch env request w)) =
            trace w ++ adapter_match request :: state_refresh :: rest /\
          refresh_count rest = 0
      else
        exists evs,
          trace (snd (dispatch env request w)) = trace w ++ evs /\
          refresh_count evs = 0
  | (Raise _, _) =>
      trace (snd (dispatch env request w)) =
        trace w ++ [adapter_match request]
  end.
Proof.
  split.
  - intros r. destruct r; simpl; split; intros H;
      try discriminate; auto; destruct H; discriminate.
  - rewrite dispatch_trace, try_body_trace.
    destruct (env (adapter_match request) (ext w)) as [[r|e] s1];
      [|reflexivity].
    destruct (refreshes r) eqn:E.
    + destruct (index_handler_trace r request
                  (mkWorld s1 (trace w ++ [adapter_match request])) E)
        as (rest & H & C).
      exists rest. rewrite H. cbn [trace]. rewrite <- app_assoc. auto.
    + destruct (quiet_handler r request E
                  (mkWorld s1 (trace w ++ [adapter_match request])))
        as (evs & H & C).
      exists (adapter_match request :: evs). rewrite H. cbn [trace].
      rewrite <- app_assoc. auto.
Qed.

End Refresh.

Lemma path_route_file_or_listing_witness :
  dispatch Demo.env (Demo.get "/v/readme.md") Demo.start =
    (Return (reply_response (html_response "<viewer.html><p># Readme</p>")),
     mkWorld (ext Demo.start)
       [adapter_match (Demo.get "/v/readme.md"); state_is_file "readme.md";
        state_get_content "readme.md" None; env_get_template "viewer.html";
        template_render "viewer.html" (content_ctx "<p># Readme</p>")]) /\
  dispatch Demo.env (Demo.get "/m/missing") Demo.start =
    (Return (reply_response not_found_response),
     mkWorld (ext Demo.start)
       [adapter_match (Demo.get "/m/missing"); state_is_file "missing";
        state_get_tree]) /\
  fst (dispatch Demo.env (Demo.get "/m/docs") Demo.start) =
    Return (reply_response
              (html_response "<plain.html>- [a.md](/m/docs)- [b.md](/m/docs)")).
Proof.
  pose (s := ext Demo.start).
  destruct (path_route_file_or_listing Demo.env ns_v "readme.md"
              (Demo.get "/v/readme.md") Demo.start s eq_refl)
    as (_ & Hfile & _).
  destruct (path_route_file_or_listing Demo.env ns_m "missing"
              (Demo.get "/m/missing") Demo.start s eq_refl)
    as (_ & _ & Hnone & _).
  destruct (path_route_file_or_listing Demo.env ns_m "docs"
              (Demo.get "/m/docs") Demo.start s eq_refl)
    as (_ & _ & _ & Hlist).
  split; [|split].
  - apply (Hfile s "<p># Readme</p>" s "viewer.html" s); reflexivity.
  - apply (Hnone s scenario_tree s); reflexivity.
  - rewrite (Hlist s scenario_tree s [file "a.md"; file "b.md"]
               "tree.md" s "- [a.md](/m/docs)- [b.md](/m/docs)" s
               "- [a.md](/m/docs)- [b.md](/m/docs)" s "plain.html" s
               "<plain.html>- [a.md](/m/docs)- [b.md](/m/docs)" s);
      reflexivity.
Defined.

Lemma mdtext_reads_provider_directly_witness :
  dispatch Demo.env (Demo.get "/t/docs/a.md") Demo.start =
    (Return (reply_response (text_response "# A")),
     mkWorld (ext Demo.start)
       [adapter_match (Demo.get "/t/docs/a.md");
        state_get_content "docs/a.md" (Some true)]) /\
  dispatch Demo.env (Demo.get "/t/nope") Demo.start =
    (Return (reply_response not_found_response),
     mkWorld (ext Demo.start)
       [adapter_match (Demo.get "/t/nope");
        state_get_content "nope" (Some true)]).
Proof.
  split.
  - exact (proj2 (mdtext_reads_provider_directly Demo.env "docs/a.md"
                    (Demo.get "/t/docs/a.md") Demo.start (ext Demo.start)
                    eq_refl)).
  - exact (proj2 (mdtext_reads_provider_directly Demo.env "nope"
                    (Demo.get "/t/nope") Demo.start (ext Demo.start)
                    eq_refl)).
Defined.


(** * Further properties of the resolver *)

Section ResolverFurther.

Lemma split_at_separator p q :
  split slash (p ++ String slash q) = split slash p ++ split slash q.
Proof.
  induction p as [|c r IH]; simpl.
  - reflexivity.
  - destruct (Ascii.eqb c slash).
    + now rewrite IH.
    + rewrite IH. pose proof (split_not_nil slash r) as Hne.
      destruct (split slash r) as [|h t]; [congruence|reflexivity].
Qed.

Lemma path_parts_at_separator p q :
  path_parts (p ++ String slash q) = path_parts p ++ path_parts q.
Proof. unfold path_parts. now rewrite split_at_separator, filter_app. Qed.

Lemma descend_app nodes a b :
  descend nodes (a ++ b) =
  match descend nodes a with
  | None => None
  | Some kids => descend kids b
  end.
Proof.
  revert nodes. induction a as [|x a IH]; intros nodes; simpl.
  - now rewrite or_empty_id.
  - destruct (find_dir nodes x) as [d|]; [apply IH|reflexivity].
Qed.

Lemma descend_nil nodes : descend nodes [] = Some nodes.
Proof. simpl. now rewrite or_empty_id. Qed.

(** X1: resolving [p/q] is resolving [q] in what [p] resolves to; when [p]
    is not found, neither is any path below it. *)
Theorem get_children_compose (tree : list TreeNode) (p q : string) :
  get_children tree (p ++ "/" ++ q) =
  match get_children tree p with
  | None => None
  | Some kids => get_children kids q
  end.
Proof.
  change (p ++ "/" ++ q)%string with (p ++ String slash q)%string.
  rewrite !get_children_parts, path_parts_at_separator.
  destruct (path_parts p) as [|x a] eqn:Ep.
  - simpl. now rewrite get_children_parts.
  - change ((x :: a) ++ path_parts q) with (x :: (a ++ path_parts q)).
    change (x :: (a ++ path_parts q)) with ((x :: a) ++ path_parts q).
    rewrite descend_app.
    destruct (descend tree (x :: a)) as [kids|]; [|reflexivity].
    rewrite get_children_parts.
    destruct (path_parts q); [apply descend_nil|reflexivity].
Qed.

Lemma descend_sound segs :
  segs <> [] ->
  forall nodes kids,
    descend nodes segs = Some kids ->
    exists d, addresses nodes segs d /\ is_directory d = true /\
              kids = get_children_or_empty d.
Proof.
  induction segs as [|seg rest IH]; [congruence|]. intros _ nodes kids.
  simpl. destruct (find_dir nodes seg) as [f|] eqn:E; [|discriminate].
  apply find_dir_some in E as (Hin & Hd & Hn).
  destruct rest as [|seg' rest'].
  - rewrite descend_nil. intros H. injection H as <-.
    exists f. split; [apply addresses_last; auto|auto].
  - intros H. destruct (IH ltac:(discriminate) _ _ H) as (d & Ha & Hdd & Hk).
    exists d. split; [eapply addresses_step; eauto|auto].
Qed.

(** X2: whatever the tree, a list returned for a path with segments is the
    child list of a directory that the path addresses: the resolver never
    returns nodes from elsewhere in the tree. *)
Theorem get_children_sound (tree : list TreeNode) (p : string)
    (kids : list TreeNode) :
  path_parts p <> [] ->
  get_children tree p = Some kids ->
  exists d, addresses tree (path_parts p) d /\ is_directory d = true /\
            kids = get_children_or_empty d.
Proof.
  intros Hne H. rewrite get_children_parts in H.
  apply (descend_sound _ Hne tree kids).
  destruct (path_parts p); [congruence|exact H].
Qed.

Lemma get_children_sound_witness :
  exists d, addresses shadowed_tree (path_parts "/a") d /\
            is_directory d = true /\
            [file "x"] = get_children_or_empty d.
Proof.
  apply (get_children_sound shadowed_tree "/a" [file "x"]);
    [discriminate|reflexivity].
Defined.

Lemma path_parts_all_slashes p :
  path_parts p = [] <-> all_slashes p = true.
Proof.
  induction p as [|c r IH]; simpl.
  - split; reflexivity.
  - unfold path_parts in *. simpl. destruct (Ascii.eqb c slash); simpl.
    + exact IH.
    + pose proof (split_not_nil slash r) as Hne.
      destruct (split slash r) as [|h t]; [congruence|].
      simpl. split; discriminate.
Qed.

(** X3: a path made of separators only yields the root list itself; any
    other path is not found in the empty tree. *)
Theorem get_children_root_paths (tree : list TreeNode) (p : string) :
  (all_slashes p = true -> get_children tree p = Some tree) /\
  (all_slashes p = false -> get_children [] p = None).
Proof.
  rewrite !get_children_parts. split; intros H.
  - apply path_parts_all_slashes in H. now rewrite H.
  - destruct (path_parts p) eqn:E; [|reflexivity].
    apply path_parts_all_slashes in E. congruence.
Qed.

Lemma get_children_root_paths_witness :
  get_children scenario_tree "///" = Some scenario_tree /\
  get_children [] "docs" = None.
Proof.
  split.
  - apply (proj1 (get_children_root_paths scenario_tree "///")). reflexivity.
  - apply (proj2 (get_children_root_paths scenario_tree "docs")). reflexivity.
Defined.

Lemma find_dir_other_name pre d post part :
  (name d =? part) = false ->
  find_dir (pre ++ d :: post) part = find_dir (pre ++ post) part.
Proof.
  intros Hn. induction pre as [|x pre IH]; simpl.
  - rewrite Hn, andb_false_r. reflexivity.
  - rewrite IH. reflexivity.
Qed.

(** X4: a node whose name is empty or contains a separator is never
    entered: for a path with segments, removing such a node from the list
    leaves the result unchanged. *)
Theorem get_children_skips_unnameable (pre post : list TreeNode)
    (d : TreeNode) (p : string) :
  path_parts p <> [] ->
  segment_name (name d) = false ->
  get_children (pre ++ d :: post) p = get_children (pre ++ post) p.
Proof.
  intros Hne Hd. rewrite !get_children_parts.
  pose proof (path_parts_segments p) as Hseg.
  destruct (path_parts p) as [|part rest]; [congruence|].
  inversion Hseg as [|? ? [Hs Ht] _]; subst. simpl.
  rewrite find_dir_other_name; [reflexivity|].
  apply String.eqb_neq. intros E. unfold segment_name in Hd.
  rewrite E, Hs, Ht in Hd. discriminate.
Qed.

Lemma get_children_skips_unnameable_witness :
  get_children [dir "a" [file "x"]; dir "a/b" [file "y"]; dir "" []] "a/b" =
  get_children [dir "a" [file "x"]; dir "" []] "a/b".
Proof.
  apply (get_children_skips_unnameable [dir "a" [file "x"]] [dir "" []]
           (dir "a/b" [file "y"]) "a/b"); [discriminate|reflexivity].
Defined.

Lemma find_dir_permutation nodes nodes' part :
  unique_names nodes = true -> Permutation nodes nodes' ->
  find_dir nodes part = find_dir nodes' part.
Proof.
  intros Hu Hp.
  destruct (find_dir nodes part) as [d|] eqn:E,
           (find_dir nodes' part) as [d'|] eqn:E'; try reflexivity.
  - apply find_dir_some in E as (Hin & _ & Hn).
    apply find_dir_some in E' as (Hin' & _ & Hn').
    f_equal. apply (unique_names_inj nodes); auto; [|congruence].
    apply (Permutation_in _ (Permutation_sym Hp)). exact Hin'.
  - apply find_dir_some in E as (Hin & Hd & Hn).
    rewrite find_dir_none in E'. exfalso.
    apply (E' d); auto. apply (Permutation_in _ Hp). exact Hin.
  - apply find_dir_some in E' as (Hin' & Hd' & Hn').
    rewrite find_dir_none in E. exfalso.
    apply (E d'); auto.
    apply (Permutation_in _ (Permutation_sym Hp)). exact Hin'.
Qed.

(** X5: when the names in a node list are pairwise different, the order of
    the nodes does not matter to a path with segments: any reordering of the
    list resolves alike. *)
Theorem get_children_sibling_order (tree tree' : list TreeNode) (p : string) :
  unique_names tree = true -> Permutation tree tree' ->
  path_parts p <> [] ->
  get_children tree p = get_children tree' p.
Proof.
  intros Hu Hp Hne. rewrite !get_children_parts.
  destruct (path_parts p) as [|part rest]; [congruence|]. simpl.
  now rewrite (find_dir_permutation _ _ part Hu Hp).
Qed.

Lemma get_children_sibling_order_witness :
  get_children scenario_tree "docs" =
  get_children [file "readme.md"; dir "docs" [file "a.md"; file "b.md"]]
    "docs".
Proof.
  apply get_children_sibling_order;
    [reflexivity|apply perm_swap|discriminate].
Defined.

End ResolverFurther.

(** * Further properties of the dispatcher *)

Section Combinators.

Context {S : Type}.
Variable env : Env S.

Lemma emits_ret {A} P (a : A) : emits P (@ret S A a).
Proof. intros w. exists []. simpl. now rewrite app_nil_r. Qed.

Lemma emits_raise {A} P (e : exn) : emits P (@raise S A e).
Proof. intros w. exists []. simpl. now rewrite app_nil_r. Qed.

Lemma emits_perform P (c : call) : P c = true -> emits P (perform env c).
Proof.
  intros Hc w. exists [c]. unfold perform.
  destruct (env c (ext w)) as [r s']. simpl. now rewrite Hc.
Qed.

Lemma emits_bind {A B} P (m : M S A) (k : A -> M S B) :
  emits P m -> (forall a, emits P (k a)) -> emits P (bind m k).
Proof.
  intros Hm Hk w. destruct (Hm w) as (e1 & H1 & C1). unfold bind.
  destruct (m w) as [[a|e] w1]; simpl in H1.
  - destruct (Hk a w1) as (e2 & H2 & C2). exists (e1 ++ e2).
    rewrite H2, H1, app_assoc, forallb_app, C1, C2. auto.
  - exists e1. auto.
Qed.

Lemma returns_ret {A} (Q : A -> Prop) (a : A) : Q a -> returns Q (@ret S A a).
Proof. intros H w a' w' E. injection E as <- _. exact H. Qed.

Lemma returns_raise {A} (Q : A -> Prop) (e : exn) : returns Q (@raise S A e).
Proof. intros w a' w' E. discriminate. Qed.

Lemma returns_bind {A B} (Q : B -> Prop) (m : M S A) (k : A -> M S B) :
  (forall a, returns Q (k a)) -> returns Q (bind m k).
Proof.
  intros Hk w b w'. unfold bind.
  destruct (m w) as [[a|e] w1]; [apply Hk|discriminate].
Qed.

End Combinators.

(** Walk through a handler, one call after the other. *)
Ltac open_handlers :=
  unfold handler, on_home, on_index, on_index_mdplain, on_dirtree, on_search,
    on_view, on_mdplain, on_mdtext, handle_common, render_file, render_tree,
    render_markdown.

Ltac split_branches :=
  match goal with
  | |- context [if ?b then _ else _] => destruct b
  | |- context [match get_children ?t ?f with _ => _ end] =>
      destruct (get_children t f)
  end.

Ltac walk_emits :=
  open_handlers;
  repeat first
    [ apply emits_raise
    | apply emits_ret
    | apply emits_perform; reflexivity
    | apply emits_bind; [|intros ?]
    | split_branches ].

Ltac walk_returns :=
  open_handlers;
  repeat first
    [ apply returns_raise
    | apply returns_bind; intros ?
    | split_branches ].

Section DispatcherFurther.

Context {S : Type}.
Variable env : Env S.

(** X6: when the handler of the matched route raises [NotFound], whatever
    the route and the description, [dispatch] answers with the 404 text
    response and the server is handed status 404 and the body
    ["Not found"]. *)
Theorem handler_not_found_is_404 request w r s1 d w2 :
  env (adapter_match request) (ext w) = (Return r, s1) ->
  handler env r request (mkWorld s1 (trace w ++ [adapter_match request])) =
    (Raise (NotFound d), w2) ->
  dispatch env request w = (Return (reply_response not_found_response), w2) /\
  wsgi_app env request w = (Return (404%Z, "Not found"), w2).
Proof.
  intros Hm Hh.
  assert (E : dispatch env request w =
              (Return (reply_response not_found_response), w2)).
  { rewrite dispatch_outcome,
      (try_body_handler _ _ _ _ _ (perform_eq _ _ _ _ _ Hm)), Hh.
    reflexivity. }
  split; [exact E|]. unfold wsgi_app.
  rewrite (bind_return _ _ _ _ _ E). reflexivity.
Qed.

(** The only exceptions that leave the [try] statement are those without
    HTTP status. *)
Theorem dispatch_raises_failures_only request w e w' :
  dispatch env request w = (Raise e, w') \/
  wsgi_app env request w = (Raise e, w') ->
  exists cls, e = Failure cls.
Proof.
  assert (Hd : forall e0 w0, dispatch env request w = (Raise e0, w0) ->
                             exists cls, e0 = Failure cls).
  { intros e0 w0. rewrite dispatch_outcome.
    destruct (try_body env request w) as [[r|[d|code body|cls]] w1];
      intros H; try discriminate.
    injection H as <- _. eauto. }
  intros [H|H]; [eauto|]. unfold wsgi_app, bind in H.
  destruct (dispatch env request w) as [[r|e0] w0] eqn:E;
    [discriminate|].
  injection H as <- _. eauto.
Qed.

(** X8: a request matched to the static rule finds no handler: [dispatch]
    raises [AttributeError] right after the match, without any call to the
    provider, and [wsgi_app] raises it too. *)
Theorem static_route_has_no_handler request w filename s1 :
  env (adapter_match request) (ext w) = (Return (static filename), s1) ->
  dispatch env request w =
    (Raise (Failure "AttributeError"),
     mkWorld s1 (trace w ++ [adapter_match request])) /\
  wsgi_app env request w =
    (Raise (Failure "AttributeError"),
     mkWorld s1 (trace w ++ [adapter_match request])).
Proof.
  intros Hm.
  assert (E : dispatch env request w =
              (Raise (Failure "AttributeError"),
               mkWorld s1 (trace w ++ [adapter_match request]))).
  { rewrite dispatch_outcome,
      (try_body_handler _ _ _ _ _ (perform_eq _ _ _ _ _ Hm)).
    reflexivity. }
  split; [exact E|]. unfold wsgi_app.
  rewrite (bind_raise _ _ _ _ _ E). reflexivity.
Qed.

(** X9: a request matched to the home rule is answered, without any call to
    the provider, by a redirect: status 302, header [Location: /v], empty
    body. *)
Theorem home_redirects request w s1 :
  env (adapter_match request) (ext w) = (Return home, s1) ->
  dispatch env request w =
    (Return (reply_response redirect_response),
     mkWorld s1 (trace w ++ [adapter_match request])) /\
  wsgi_app env request w =
    (Return (302%Z, ""), mkWorld s1 (trace w ++ [adapter_match request])).
Proof.
  intros Hm.
  assert (E : dispatch env request w =
              (Return (reply_response redirect_response),
               mkWorld s1 (trace w ++ [adapter_match request]))).
  { rewrite dispatch_outcome,
      (try_body_handler _ _ _ _ _ (perform_eq _ _ _ _ _ Hm)).
    reflexivity. }
  split; [exact E|]. unfold wsgi_app.
  rewrite (bind_return _ _ _ _ _ E). reflexivity.
Qed.

End DispatcherFurther.

Lemma handler_not_found_is_404_witness :
  dispatch Demo.env (Demo.get "/t/nope") Demo.start =
    (Return (reply_response not_found_response),
     mkWorld (ext Demo.start)
       [adapter_match (Demo.get "/t/nope");
        state_get_content "nope" (Some true)]) /\
  wsgi_app Demo.env (Demo.get "/t/nope") Demo.start =
    (Return (404%Z, "Not found"),
     mkWorld (ext Demo.start)
       [adapter_match (Demo.get "/t/nope");
        state_get_content "nope" (Some true)]).
Proof.
  apply (handler_not_found_is_404 Demo.env (Demo.get "/t/nope") Demo.start
           (mdtext "nope") (ext Demo.start) "nope"); reflexivity.
Defined.

Lemma dispatch_raises_failures_only_witness :
  exists cls, Failure "AttributeError" = Failure cls.
Proof.
  apply (dispatch_raises_failures_only Demo.env (Demo.get "/static/x.css")
           Demo.start (Failure "AttributeError")
           (mkWorld (ext Demo.start)
              [adapter_match (Demo.get "/static/x.css")])).
  left. reflexivity.
Defined.

Lemma static_route_has_no_handler_witness :
  wsgi_app Demo.env (Demo.get "/static/x.css") Demo.start =
    (Raise (Failure "AttributeError"),
     mkWorld (ext Demo.start) [adapter_match (Demo.get "/static/x.css")]).
Proof.
  apply (static_route_has_no_handler Demo.env (Demo.get "/static/x.css")
           Demo.start "x.css" (ext Demo.start)). reflexivity.
Defined.

Lemma home_redirects_witness :
  wsgi_app Demo.env (Demo.get "/") Demo.start =
    (Return (302%Z, ""),
     mkWorld (ext Demo.start) [adapter_match (Demo.get "/")]).
Proof.
  apply (home_redirects Demo.env (Demo.get "/") Demo.start (ext Demo.start)).
  reflexivity.
Defined.

(** * Further properties of the handlers *)

(** Runs the index and API handlers along the recorded answers. *)
Ltac run_handlers :=
  unfold dispatch, try_except, try_body, handler, on_index, on_index_mdplain,
    on_dirtree, on_search, bind, ret, raise, perform;
  cbn [ext trace];
  repeat match goal with
         | H : ?e ?c ?s = _ |- context [?e ?c ?s] => rewrite H; cbn [ext trace]
         end;
  cbn [ext trace];
  rewrite <- ?app_assoc; cbn [app].

Section HandlersFurther.

Context {S : Type}.
Variable env : Env S.

(** X10: for a request matched to an index route the tree that is listed is
    the one the provider returns after the refresh: when every call succeeds
    the reply is the page built from that tree, with the prefix of the
    namespace and the root ["/"], the page template being loaded before the
    listing is parsed; when the refresh raises, the tree is not read and
    nothing is rendered. *)
Theorem index_lists_refreshed_tree (ns : namespace) (request : Request)
    (w : world S) (s1 : S) :
  env (adapter_match request) (ext w) = (Return (index_route ns), s1) ->
  (forall s2 tree s3 t s4 md s5 pt s6 parsed s7 page s8,
      env state_refresh s1 = (Return tt, s2) ->
      env state_get_tree s2 = (Return tree, s3) ->
      env (env_get_template "tree.md") s3 = (Return t, s4) ->
      env (template_render t (tree_ctx tree (prefix_of ns) "/")) s4 =
        (Return md, s5) ->
      env (env_get_template (template_of ns)) s5 = (Return pt, s6) ->
      env (MarkdownParser_parse md) s6 = (Return parsed, s7) ->
      env (template_render pt (content_ctx parsed)) s7 = (Return page, s8) ->
      dispatch env request w =
      (Return (reply_response (html_response page)),
       mkWorld s8
         (trace w ++
          [adapter_match request; state_refresh; state_get_tree;
           env_get_template "tree.md";
           template_render t (tree_ctx tree (prefix_of ns) "/");
           env_get_template (template_of ns);
           MarkdownParser_parse md;
           template_render pt (content_ctx parsed)]))) /\
  (forall e s2,
      env state_refresh s1 = (Raise e, s2) ->
      dispatch env request w =
      (match e with
       | NotFound _ => Return (reply_response not_found_response)
       | HTTPException code body => Return (reply_exception code body)
       | Failure cls => Raise (Failure cls)
       end,
       mkWorld s2 (trace w ++ [adapter_match request; state_refresh]))).
Proof.
  intros Hm. split.
  - intros. destruct ns; cbn [prefix_of template_of index_route] in *;
      run_handlers; reflexivity.
  - intros e s2 Hr. destruct ns; cbn [index_route] in *; run_handlers;
      destruct e as [d|code body|cls]; reflexivity.
Qed.

(** X11: for a request matched to [/api/tree] the provider's current tree
    is read, without refresh, and serialised as it is: when both calls
    succeed the reply is the JSON text with status 200 and mimetype
    [application/json]. *)
Theorem dirtree_serialises_snapshot (request : Request) (w : world S)
    (s1 : S) (tree : list TreeNode) (s2 : S) (body : string) (s3 : S) :
  env (adapter_match request) (ext w) = (Return dirtree, s1) ->
  env state_get_tree s1 = (Return tree, s2) ->
  env (json_dumps (of_tree tree)) s2 = (Return body, s3) ->
  dispatch env request w =
  (Return (reply_response (json_response body)),
   mkWorld s3
     (trace w ++
      [adapter_match request; state_get_tree; json_dumps (of_tree tree)])).
Proof. intros. run_handlers. reflexivity. Qed.

(** X12: for a request matched to [/api/search] the provider is asked with
    the first [query] argument of the request, or with [None] when the
    request has none, and its result is serialised as it is. *)
Theorem search_passes_query_through (request : Request) (w : world S)
    (s1 : S) (result : json) (s2 : S) (body : string) (s3 : S) :
  env (adapter_match request) (ext w) = (Return search, s1) ->
  env (state_search (args_get "query" (args request))) s1 =
    (Return result, s2) ->
  env (json_dumps (of_result result)) s2 = (Return body, s3) ->
  dispatch env request w =
  (Return (reply_response (json_response body)),
   mkWorld s3
     (trace w ++
      [adapter_match request;
       state_search (args_get "query" (args request));
       json_dumps (of_result result)])).
Proof. intros. run_handlers. reflexivity. Qed.

Lemma handler_shaped r request : returns (shaped r) (handler env r request).
Proof.
  destruct r; walk_returns; apply returns_ret; unfold shaped;
    first [ left; reflexivity
          | right; left; split; reflexivity
          | right; right; repeat split; discriminate ].
Qed.

(** X13: the responses of [dispatch] have one of three shapes: the 404 text
    response, the redirect (home route only), or status 200 without extra
    headers and with the mimetype of the route: [text/html] for the viewer
    and plain routes, [text/plain] for the raw text route,
    [application/json] for the two API routes. *)
Theorem dispatch_response_shapes request w r s1 resp w' :
  env (adapter_match request) (ext w) = (Return r, s1) ->
  dispatch env request w = (Return (reply_response resp), w') ->
  shaped r resp.
Proof.
  intros Hm. rewrite dispatch_outcome,
    (try_body_handler _ _ _ _ _ (perform_eq _ _ _ _ _ Hm)).
  destruct (handler env r request _) as [[resp'|[d|code body|cls]] w2] eqn:E;
    intros H; try discriminate.
  - injection H as <- _. exact (handler_shaped _ _ _ _ _ E).
  - injection H as <- _. left. reflexivity.
Qed.

Lemma listing_is_html template tree prefix root :
  returns (fun r => status r = 200%Z /\ mimetype r = "text/html")
    (t <- perform env (env_get_template "tree.md") ;;
     tree_md <- perform env (template_render t (tree_ctx tree prefix root)) ;;
     parsed <- perform env (MarkdownParser_parse tree_md) ;;
     render_markdown env template parsed).
Proof. walk_returns. apply returns_ret. split; reflexivity. Qed.

(** X14: once the tree is read, [render_tree] answers with status 404
    exactly when the resolver returns [None]; for a directory that exists,
    an empty one included, whatever it returns is a 200 page. *)
Theorem render_tree_404_iff_unresolved template prefix filename w tree s1
    resp w' :
  env state_get_tree (ext w) = (Return tree, s1) ->
  render_tree env template prefix filename w = (Return resp, w') ->
  (status resp = 404%Z <-> get_children tree filename = None) /\
  (forall kids, get_children tree filename = Some kids ->
                status resp = 200%Z /\ mimetype resp = "text/html").
Proof.
  intros Ht. unfold render_tree.
  rewrite (bind_return _ _ _ _ _ (perform_eq _ _ _ _ _ Ht)).
  destruct (get_children tree filename) as [kids|].
  - intros H. apply listing_is_html in H. destruct H as [H200 Hmt].
    split; [|auto]. rewrite H200. split; discriminate.
  - intros H. injection H as <- _. split; [|discriminate].
    split; reflexivity.
Qed.

Lemma emits_render_file template filename :
  emits not_get_tree (render_file env template filename).
Proof. walk_emits. Qed.

Lemma emits_render_tree template prefix filename :
  emits not_get_content (render_tree env template prefix filename).
Proof. walk_emits. Qed.

(** X15: [handle_common] first asks [is_file] and then reads either the
    file or the tree, never both: after a true answer the tree is not
    fetched, after a false one no content is fetched, and when [is_file]
    raises nothing else is called. *)
Theorem handle_common_reads_file_or_tree filename template prefix w :
  exists evs,
    trace (snd (handle_common env filename template prefix w)) =
      trace w ++ state_is_file filename :: evs /\
    match fst (env (state_is_file filename) (ext w)) with
    | Return true => forallb not_get_tree evs = true
    | Return false => forallb not_get_content evs = true
    | Raise _ => evs = []
    end.
Proof.
  unfold handle_common, bind, perform.
  destruct (env (state_is_file filename) (ext w)) as [[[|]|e] s1];
    cbn [fst].
  - destruct (emits_render_file template filename
                (mkWorld s1 (trace w ++ [state_is_file filename])))
      as (evs & H & C).
    exists evs. rewrite H. cbn [trace]. rewrite <- app_assoc. auto.
  - destruct (emits_render_tree template prefix filename
                (mkWorld s1 (trace w ++ [state_is_file filename])))
      as (evs & H & C).
    exists evs. rewrite H. cbn [trace]. rewrite <- app_assoc. auto.
  - exists []. auto.
Qed.

Lemma emits_handler r request : emits not_match (handler env r request).
Proof. destruct r; walk_emits. Qed.

(** The [try] statement asks the adapter for a match once, before any
    other call. *)
Theorem dispatch_matches_once request w :
  exists evs,
    trace (snd (dispatch env request w)) =
      trace w ++ adapter_match request :: evs /\
    forallb not_match evs = true.
Proof.
  rewrite dispatch_trace, try_body_trace.
  destruct (env (adapter_match request) (ext w)) as [[r|e] s1].
  - destruct (emits_handler r request
                (mkWorld s1 (trace w ++ [adapter_match request])))
      as (evs & H & C).
    exists evs. rewrite H. cbn [trace]. rewrite <- app_assoc. auto.
  - exists []. auto.
Qed.

End HandlersFurther.

Lemma index_lists_refreshed_tree_witness :
  dispatch Demo.env (Demo.get "/m/") (mkWorld (Demo.mkState [] 0) []) =
    (Return (reply_response
               (html_response "<plain.html>- [docs](/m/)- [readme.md](/m/)")),
     mkWorld (Demo.mkState scenario_tree 1)
       [adapter_match (Demo.get "/m/"); state_refresh; state_get_tree;
        env_get_template "tree.md";
        template_render "tree.md" (tree_ctx scenario_tree "m" "/");
        env_get_template "plain.html";
        MarkdownParser_parse "- [docs](/m/)- [readme.md](/m/)";
        template_render "plain.html"
          (content_ctx "- [docs](/m/)- [readme.md](/m/)")]).
Proof.
  pose (s := Demo.mkState scenario_tree 1).
  destruct (index_lists_refreshed_tree Demo.env ns_m (Demo.get "/m/")
              (mkWorld (Demo.mkState [] 0) []) (Demo.mkState [] 0) eq_refl)
    as (Hok & _).
  apply (Hok s scenario_tree s "tree.md" s
           "- [docs](/m/)- [readme.md](/m/)" s "plain.html" s
           "- [docs](/m/)- [readme.md](/m/)" s
           "<plain.html>- [docs](/m/)- [readme.md](/m/)" s);
    reflexivity.
Defined.

Lemma dirtree_serialises_snapshot_witness :
  dispatch Demo.env (Demo.get "/api/tree") Demo.start =
    (Return (reply_response (json_response "docs,readme.md")),
     mkWorld (ext Demo.start)
       [adapter_match (Demo.get "/api/tree"); state_get_tree;
        json_dumps (of_tree scenario_tree)]).
Proof.
  apply (dirtree_serialises_snapshot Demo.env (Demo.get "/api/tree")
           Demo.start (ext Demo.start) scenario_tree (ext Demo.start)
           "docs,readme.md" (ext Demo.start)); reflexivity.
Defined.

Lemma search_passes_query_through_witness :
  dispatch Demo.env (mkRequest "/api/search" [("page", "2"); ("query", "md")])
    Demo.start =
    (Return (reply_response (json_response "[]")),
     mkWorld (ext Demo.start)
       [adapter_match (mkRequest "/api/search" [("page", "2"); ("query", "md")]);
        state_search (Some "md");
        json_dumps (of_result (JArr [JStr "md"]))]).
Proof.
  apply (search_passes_query_through Demo.env
           (mkRequest "/api/search" [("page", "2"); ("query", "md")])
           Demo.start (ext Demo.start) (JArr [JStr "md"]) (ext Demo.start)
           "[]" (ext Demo.start)); reflexivity.
Defined.

Lemma dispatch_response_shapes_witness :
  shaped (mdtext "docs/a.md") (text_response "# A").
Proof.
  apply (dispatch_response_shapes Demo.env (Demo.get "/t/docs/a.md")
           Demo.start (mdtext "docs/a.md") (ext Demo.start)
           (text_response "# A")
           (mkWorld (ext Demo.start)
              [adapter_match (Demo.get "/t/docs/a.md");
               state_get_content "docs/a.md" (Some true)]));
    reflexivity.
Defined.

Lemma render_tree_404_iff_unresolved_witness :
  (status (html_response "<viewer.html>") = 404%Z <->
   get_children sparse_tree "empty" = None) /\
  (forall kids, get_children sparse_tree "empty" = Some kids ->
                status (html_response "<viewer.html>") = 200%Z /\
                mimetype (html_response "<viewer.html>") = "text/html").
Proof.
  apply (render_tree_404_iff_unresolved Demo.env "viewer.html" "v" "empty"
           (mkWorld (Demo.mkState sparse_tree 1) []) sparse_tree
           (Demo.mkState sparse_tree 1) (html_response "<viewer.html>")
           (mkWorld (Demo.mkState sparse_tree 1)
              [state_get_tree; env_get_template "tree.md";
               template_render "tree.md" (tree_ctx [] "v" "/empty");
               MarkdownParser_parse "";
               env_get_template "viewer.html";
               template_render "viewer.html" (content_ctx "")]));
    reflexivity.
Defined.

(** * The whole of dispatch and the server *)

Section ServerProperties.

Context {S : Type}.
Variable env : Env S.

Lemma App_dispatch_bound request w s0 :
  env (url_map_bind request) (ext w) = (Return tt, s0) ->
  App_dispatch env request w =
  dispatch env request (mkWorld s0 (trace w ++ [url_map_bind request])).
Proof.
  intros H. unfold App_dispatch.
  now rewrite (bind_return _ _ _ _ _ (perform_eq _ _ _ _ _ H)).
Qed.

Lemma App_dispatch_unbound request w e s0 :
  env (url_map_bind request) (ext w) = (Raise e, s0) ->
  App_dispatch env request w =
  (Raise e, mkWorld s0 (trace w ++ [url_map_bind request])).
Proof.
  intros H. unfold App_dispatch.
  now rewrite (bind_raise _ _ _ _ _ (perform_eq _ _ _ _ _ H)).
Qed.

Lemma App_wsgi_app_raise request w e w' :
  App_dispatch env request w = (Raise e, w') ->
  App_wsgi_app env request w = (Raise e, w').
Proof.
  intros H. unfold App_wsgi_app. now rewrite (bind_raise _ _ _ _ _ H).
Qed.

Lemma App_wsgi_app_raised request w e w' :
  App_wsgi_app env request w = (Raise e, w') ->
  App_dispatch env request w = (Raise e, w').
Proof.
  unfold App_wsgi_app, bind.
  destruct (App_dispatch env request w) as [[r|e0] w0]; [discriminate|].
  intros H. injection H as <- <-. reflexivity.
Qed.


(** X7: an exception raised while the URL map is bound leaves [dispatch] and
    [wsgi_app] as it is, whatever its kind, and nothing else is called: the
    binding precedes the [try].  Once the adapter is bound, the only
    exceptions that leave them are those without HTTP status. *)
Theorem app_dispatch_exceptions request w :
  (forall e s0,
      env (url_map_bind request) (ext w) = (Raise e, s0) ->
      App_dispatch env request w =
        (Raise e, mkWorld s0 (trace w ++ [url_map_bind request])) /\
      App_wsgi_app env request w =
        (Raise e, mkWorld s0 (trace w ++ [url_map_bind request]))) /\
  (forall s0 e w',
      env (url_map_bind request) (ext w) = (Return tt, s0) ->
      App_dispatch env request w = (Raise e, w') \/
      App_wsgi_app env request w = (Raise e, w') ->
      exists cls, e = Failure cls).
Proof.
  split.
  - intros e s0 H. pose proof (App_dispatch_unbound _ _ _ _ H) as E.
    split; [exact E|exact (App_wsgi_app_raise _ _ _ _ E)].
  - intros s0 e w' Hb H.
    assert (E : App_dispatch env request w = (Raise e, w'))
      by (destruct H as [H|H]; [exact H|exact (App_wsgi_app_raised _ _ _ _ H)]).
    rewrite (App_dispatch_bound _ _ _ Hb) in E.
    apply (dispatch_raises_failures_only env request
             (mkWorld s0 (trace w ++ [url_map_bind request])) e w').
    left. exact E.
Qed.

Lemma emits_handler_calls r request :
  emits handler_call (handler env r request).
Proof. destruct r; walk_emits. Qed.

(** X16: [dispatch] binds the URL map first.  When that raises, nothing else
    is called, the match included; otherwise the adapter is asked for a
    match exactly once, right after the binding and before any call of a
    handler. *)
Theorem app_dispatch_binds_then_matches request w :
  exists evs,
    trace (snd (App_dispatch env request w)) =
      trace w ++ url_map_bind request :: evs /\
    match fst (env (url_map_bind request) (ext w)) with
    | Raise _ => evs = []
    | Return _ =>
        exists rest, evs = adapter_match request :: rest /\
                     forallb handler_call rest = true
    end.
Proof.
  unfold App_dispatch, bind, perform.
  destruct (env (url_map_bind request) (ext w)) as [[u|e] s0]; cbn [fst].
  - rewrite dispatch_trace, try_body_trace. cbn [ext trace].
    destruct (env (adapter_match request) s0) as [[r|e] s1].
    + destruct (emits_handler_calls r request
                  (mkWorld s1 ((trace w ++ [url_map_bind request]) ++
                               [adapter_match request])))
        as (rest & H & C).
      exists (adapter_match request :: rest). rewrite H. cbn [trace].
      rewrite <- !app_assoc. split; [reflexivity|]. exists rest. auto.
    + exists [adapter_match request]. rewrite <- app_assoc.
      split; [reflexivity|]. exists []. auto.
  - exists []. auto.
Qed.

End ServerProperties.



Lemma app_dispatch_exceptions_witness :
  App_dispatch Demo.bad_host (Demo.get "/v/") Demo.start =
    (Raise (HTTPException 400 "Bad Request"),
     mkWorld (ext Demo.start) [url_map_bind (Demo.get "/v/")]) /\
  exists cls, Failure "AttributeError" = Failure cls.
Proof.
  destruct (app_dispatch_exceptions Demo.bad_host (Demo.get "/v/") Demo.start)
    as (Hbad & _).
  destruct (app_dispatch_exceptions Demo.env (Demo.get "/static/x.css")
              Demo.start) as (_ & Hok).
  split.
  - exact (proj1 (Hbad (HTTPException 400 "Bad Request") (ext Demo.start)
                    eq_refl)).
  - apply (Hok (ext Demo.start) (Failure "AttributeError")
             (mkWorld (ext Demo.start)
                [url_map_bind (Demo.get "/static/x.css");
                 adapter_match (Demo.get "/static/x.css")]) eq_refl).
    left. reflexivity.
Defined.
